(** * pIRS: the bash token tracker (src/index.ts)

    A shallow embedding of the command classifier, the token estimator and
    the [/pirs] report of [src/index.ts], with the properties of its
    specification stated and proved over it.

    Modelling conventions.
    - A JavaScript string is a [string]: a sequence of code units, each an
      [ascii] (code units 0..255).  [\s], [\w], [\d] and [trim] are exact on
      such strings.
    - The integer-valued numbers of a record (character counts, token
      estimates, call counts) are in [Z]; they are sums of string lengths
      and ceilings, far below 2^53, where binary64 arithmetic on integers is
      exact.
    - The percentage of the grouped report is computed in binary64
      ([PrimFloat]), the arithmetic of a JavaScript number, because its
      non-finite outcomes and its decimal rounding are visible in the
      report.
    - A [Map] is an association list in insertion order, which is the
      iteration order of a JavaScript [Map]. *)

From Stdlib Require Import ZArith List String Ascii Bool Lia.
From Stdlib Require Import QArith Qround.
From Stdlib Require Import Floats.
From Stdlib Require Import Sorted Permutation.
From Stdlib Require Import DecimalString.
Import ListNotations.

Local Open Scope list_scope.
Local Open Scope Z_scope.
Local Open Scope string_scope.

Set Implicit Arguments.

(* ------------------------------------------------------------------ *)
(** * Strings: the methods of [String.prototype] the source calls *)

Module JsString.

(** WhiteSpace and LineTerminator code units below 256: TAB, LF, VT, FF, CR,
    SPACE and NBSP.  This is the set of [\s] and of [trim]. *)
Definition is_space (c : ascii) : bool :=
  let n := nat_of_ascii c in
  ((9 <=? n) && (n <=? 13) || (n =? 32) || (n =? 160))%nat.

Definition is_digit (c : ascii) : bool :=
  let n := nat_of_ascii c in ((48 <=? n) && (n <=? 57))%nat.

(** [\w]: ASCII letters, digits and the underscore. *)
Definition is_word (c : ascii) : bool :=
  let n := nat_of_ascii c in
  ((48 <=? n) && (n <=? 57) || (65 <=? n) && (n <=? 90)
   || (97 <=? n) && (n <=? 122) || (n =? 95))%nat.

(** [one_of set c]: [c] is one of the characters of [set]. *)
Fixpoint one_of (set : string) (c : ascii) : bool :=
  match set with
  | EmptyString => false
  | String d set' => Ascii.eqb c d || one_of set' c
  end.

Fixpoint trimStart (s : string) : string :=
  match s with
  | EmptyString => EmptyString
  | String c s' => if is_space c then trimStart s' else s
  end.

Fixpoint trimEnd (s : string) : string :=
  match s with
  | EmptyString => EmptyString
  | String c s' =>
      match trimEnd s' with
      | EmptyString => if is_space c then EmptyString else String c EmptyString
      | t => String c t
      end
  end.

Definition trim (s : string) : string := trimEnd (trimStart s).

(** [s.startsWith(p)] *)
Definition startsWith (s p : string) : bool := String.prefix p s.

(** [s.includes(p)]: [p] occurs in [s] at some offset. *)
Fixpoint includes (s p : string) : bool :=
  String.prefix p s ||
  match s with
  | EmptyString => false
  | String _ s' => includes s' p
  end.

(** [s.slice(0, n)] for [0 <= n]. *)
Definition slice0 (n : nat) (s : string) : string := String.substring 0 n s.

(** Truthiness of a string: only the empty string is falsy. *)
Definition truthy (s : string) : bool :=
  match s with EmptyString => false | _ => true end.

End JsString.

(* ------------------------------------------------------------------ *)
(** * Regular expressions: a backtracking matcher

    The matcher follows the continuation semantics of the ECMAScript
    specification for the constructs the source's four patterns use:
    character classes, concatenation, the greedy quantifiers [*], [+] and
    [?], one level of capture groups, and the assertions [^] and [$]
    (no flags are set in the source). *)

Module RegExp.
Import JsString.

Inductive regex : Type :=
| Class (p : ascii -> bool)     (* one character satisfying [p] *)
| Eps                           (* the empty pattern *)
| Seq (r1 r2 : regex)           (* r1 r2 *)
| Star (r : regex)              (* r*, greedy *)
| Opt (r : regex)               (* r?, greedy *)
| Group (n : nat) (r : regex)   (* capture group number n *)
| Bol                           (* ^ *)
| Eol.                          (* $ *)

(** [r+] is one [r] then [r*]. *)
Definition Plus (r : regex) : regex := Seq r (Star r).

(** A literal string, character by character. *)
Fixpoint Lit (s : string) : regex :=
  match s with
  | EmptyString => Eps
  | String c s' => Seq (Class (Ascii.eqb c)) (Lit s')
  end.

(** Captures, most recent first. *)
Definition captures := list (nat * string).

Fixpoint capture (n : nat) (caps : captures) : option string :=
  match caps with
  | [] => None
  | (m, s) :: caps' => if Nat.eqb n m then Some s else capture n caps'
  end.

(** The text between two positions of the input, each given as the suffix
    that remains to be read. *)
Definition consumed (s s1 : string) : string :=
  String.substring 0 (String.length s - String.length s1) s.

Definition answer := option (string * captures).
Definition cont := string -> captures -> answer.

(** A matcher: from a position and the captures so far, try to match and
    then continue. *)
Definition matcher := string -> captures -> cont -> answer.

(** The iterations of a greedy [*] whose body is [body]: one more
    iteration first, the continuation when that fails.  An iteration that
    consumes nothing fails (the empty check of RepeatMatcher), so a [fuel]
    of [String.length s] iterations is never exhausted. *)
Fixpoint star_loop (body : matcher) (k : cont) (fuel : nat) (s : string)
         (caps : captures) {struct fuel} : answer :=
  match fuel with
  | O => k s caps
  | S fuel' =>
      match body s caps
              (fun s1 c1 =>
                 if (String.length s1 <? String.length s)%nat
                 then star_loop body k fuel' s1 c1 else None) with
      | Some a => Some a
      | None => k s caps
      end
  end.

(** [run len0 r s caps k]: match [r] at the position whose remaining input
    is [s], in an input of [len0] characters, then continue with [k].  A
    failure of [k] makes the matcher backtrack. *)
Fixpoint run (len0 : nat) (r : regex) (s : string) (caps : captures)
         (k : cont) {struct r} : answer :=
  match r with
  | Class p =>
      match s with
      | String c s' => if p c then k s' caps else None
      | EmptyString => None
      end
  | Eps => k s caps
  | Seq r1 r2 => run len0 r1 s caps (fun s1 c1 => run len0 r2 s1 c1 k)
  | Star r1 => star_loop (run len0 r1) k (String.length s) s caps
  | Opt r1 =>
      match run len0 r1 s caps
              (fun s1 c1 =>
                 if (String.length s1 <? String.length s)%nat
                 then k s1 c1 else None) with
      | Some a => Some a
      | None => k s caps
      end
  | Group n r1 =>
      run len0 r1 s caps (fun s1 c1 => k s1 ((n, consumed s s1) :: c1))
  | Bol => if (String.length s =? len0)%nat then k s caps else None
  | Eol => match s with EmptyString => k s caps | _ => None end
  end.

(** The result of a successful [exec]: where the match starts, the input
    that follows the match, and the captures. *)
Record match_result : Type := MatchResult {
  index : nat;
  after : string;
  groups : captures
}.

(** Try the offsets [i], [i+1], ... up to the end of the input. *)
Fixpoint exec_from (len0 : nat) (r : regex) (i : nat) (s : string)
  : option match_result :=
  match run len0 r s [] (fun s1 c1 => Some (s1, c1)) with
  | Some (s1, c1) => Some (MatchResult i s1 c1)
  | None =>
      match s with
      | EmptyString => None
      | String _ s' => exec_from len0 r (S i) s'
      end
  end.

(** [r.exec(s)] / [s.match(r)] for a pattern without the [g] flag. *)
Definition exec (r : regex) (s : string) : option match_result :=
  exec_from (String.length s) r 0 s.

(** [s.replace(r, "")]: delete the first match. *)
Definition replace_empty (r : regex) (s : string) : string :=
  match exec r s with
  | None => s
  | Some m => slice0 (index m) s ++ after m
  end.

End RegExp.

(* ------------------------------------------------------------------ *)
(** * The classifier *)

Module Classifier.
Import JsString RegExp.

(** Pattern groups: the group name, then its patterns.  A pattern matches
    if the command contains it as a substring. *)
Definition COMMAND_GROUPS : list (string * list string) :=
  [ ("pytest", ["pytest"; "python3 -m pytest"; "python -m pytest";
                "uv run pytest"; "uv run python -m pytest"]);
    ("vitest", ["vitest"]);
    ("jest", ["jest"]);
    ("tsc", ["tsc"]);
    ("eslint", ["eslint"]);
    ("npm install", ["npm install"; "npm ci"; "pnpm install"; "pnpm i";
                     "bun install"; "bun add"]);
    ("npm run", ["npm run"; "pnpm run"; "pnpm exec"; "bun run"]);
    ("npm", ["npm "; "pnpm "; "bun "]);
    ("pip", ["pip install"; "pip3 install"; "uv add"; "uv pip install";
             "uv pip compile"; "uv pip sync"]);
    ("uv", ["uv run"; "uv sync"; "uv lock"; "uv venv"; "uv init";
            "uv remove"; "uv tree"; "uv "]);
    ("git", ["git "]);
    ("grep/rg", ["grep "; "rg "]);
    ("find", ["find "]);
    ("cat/head/tail", ["cat "; "head "; "tail "]);
    ("ls", ["ls "]);
    ("file ops", ["cp "; "mv "; "mkdir "; "rm "; "rmdir "; "chmod ";
                  "chown "; "ln "; "touch "]);
    ("docker", ["docker "]);
    ("curl/wget", ["curl "; "wget "]);
    ("cargo test", ["cargo test"]);
    ("cargo fmt", ["cargo fmt"]);
    ("cargo clippy", ["cargo clippy"]);
    ("cargo", ["cargo "]);
    ("go", ["go build"; "go test"; "go run"]);
    ("make", ["make "]) ].

(** The pattern [^ ( cd \s+ [^;&]+ [;&] \s* )+], written here with blanks
    between its parts. *)
Definition re_cd_prefix : regex :=
  Seq Bol
    (Plus (Group 1
       (Seq (Lit "cd")
       (Seq (Plus (Class is_space))
       (Seq (Plus (Class (fun c => negb (one_of ";&" c))))
       (Seq (Class (one_of ";&"))
            (Star (Class is_space)))))))).

(** The pattern [^ ( \w+ = \S+ \s+ )+]. *)
Definition re_env_prefix : regex :=
  Seq Bol
    (Plus (Group 1
       (Seq (Plus (Class is_word))
       (Seq (Lit "=")
       (Seq (Plus (Class (fun c => negb (is_space c))))
            (Plus (Class is_space))))))).

(** Extract the first real command from a string, skipping cd/env
    prefixes. *)
Definition extractBaseCommand (command : string) : string :=
  let cmd := trim command in
  let cmd := replace_empty re_cd_prefix cmd in
  let cmd := replace_empty re_env_prefix cmd in
  trim cmd.

(** The characters of the class [[\w@/.:-]]. *)
Definition is_pkg_char (c : ascii) : bool := is_word c || one_of "@/.:-" c.

(** The characters of the class [[\d^~>=<.*]]. *)
Definition is_version_char (c : ascii) : bool :=
  is_digit c || one_of "^~>=<.*" c.

(** The pattern [${runner} \s+ (?: -- \s+ )? ( [\w@/.:-]+ )] built by
    [new RegExp]; the runners of the source are plain words, with no
    character special in a pattern. *)
Definition re_runner (runner : string) : regex :=
  Seq (Lit runner)
  (Seq (Plus (Class is_space))
  (Seq (Opt (Seq (Lit "--") (Plus (Class is_space))))
       (Group 1 (Plus (Class is_pkg_char))))).

(** The pattern [@ [\d^~>=<.*]+ $]. *)
Definition re_version_suffix : regex :=
  Seq (Lit "@") (Seq (Plus (Class is_version_char)) Eol).

(** Extract npx/bunx subcommand name; [None] is [null]. *)
Definition extractRunnerCommand (base runner : string) : option string :=
  match exec (re_runner runner) base with
  | None => None
  | Some m =>
      match capture 1 (groups m) with
      | None => None
      | Some m1 => Some (replace_empty re_version_suffix m1)
      end
  end.

Definition RUNNERS : list string := ["npx"; "bunx"; "uvx"].

(** The loop over the runners: [Some] category when [base] starts with a
    runner and a space, [None] when the loop falls through. *)
Fixpoint classifyRunner (runners : list string) (base : string)
  : option string :=
  match runners with
  | [] => None
  | runner :: rest =>
      if startsWith base (runner ++ " ") then
        match extractRunnerCommand base runner with
        | Some sub => if truthy sub then Some (runner ++ " " ++ sub)
                      else Some runner
        | None => Some runner
        end
      else classifyRunner rest base
  end.

(** The inner loop: does [base] include one of the patterns? *)
Fixpoint matchPatterns (patterns : list string) (base : string) : bool :=
  match patterns with
  | [] => false
  | pattern :: rest => includes base pattern || matchPatterns rest base
  end.

(** The outer loop over the table: the name of the first group one of
    whose patterns [base] includes. *)
Fixpoint classifyStatic (table : list (string * list string))
         (base : string) : option string :=
  match table with
  | [] => None
  | (groupName, patterns) :: rest =>
      if matchPatterns patterns base then Some groupName
      else classifyStatic rest base
  end.

Definition classifyCommand (command : string) : string :=
  let base := extractBaseCommand command in
  match classifyRunner RUNNERS base with
  | Some group => group
  | None =>
      match classifyStatic COMMAND_GROUPS base with
      | Some group => group
      | None => "other"
      end
  end.

End Classifier.

(* ------------------------------------------------------------------ *)
(** * The token estimator *)

Module Estimator.

Definition CHARS_PER_TOKEN : Z := 4.

(** [Math.ceil(chars / CHARS_PER_TOKEN)].  The quotient is taken in the
    rationals: dividing a binary64 integer by 4 only changes its exponent,
    so the quotient of the source is this rational exactly. *)
Definition estimateTokens (chars : Z) : Z :=
  Qceiling (inject_Z chars / inject_Z CHARS_PER_TOKEN).

End Estimator.

(* ------------------------------------------------------------------ *)
(** * Numbers: division and [toFixed(1)] in binary64 *)

Module Number.

(** The binary64 value of an integer (the nearest one, beyond 2^53). *)
Definition of_Z (z : Z) : float :=
  SF2Prim (binary_normalize prec emax z 0 false).

(** The decimal digits of a natural number. *)
Definition digits (n : Z) : string :=
  NilZero.string_of_uint (N.to_uint (Z.to_N n)).

(** What [x.toFixed(1)] evaluates to. *)
Inductive fixed : Type :=
| Text (s : string)        (* the string returned *)
| Exponential (x : float). (* 10^21 <= |x|: the string is Number::toString
                              of x, in exponent notation, left unexpanded *)

(** [Number.prototype.toFixed] with one fraction digit.  A finite [x] is
    [m * 2^e]; the integer [n] nearest to [10 * |x|] is taken, the larger
    one on a tie, and printed with a point before its last digit. *)
Definition toFixed1 (x : float) : fixed :=
  match Prim2SF x with
  | S754_nan => Text "NaN"
  | S754_infinity false => Text "Infinity"
  | S754_infinity true => Text "-Infinity"
  | S754_zero _ => Text "0.0"
  | S754_finite neg m e =>
      let sign := if neg then "-" else "" in
      if (0 <=? e)%Z then
        let v := (Z.pos m * 2 ^ e)%Z in
        if (10 ^ 21 <=? v)%Z then Exponential x
        else Text (sign ++ digits v ++ ".0")
      else
        let d := (2 ^ (- e))%Z in
        if (10 ^ 21 * d <=? Z.pos m)%Z then Exponential x
        else
          let n := ((20 * Z.pos m + d) / (2 * d))%Z in
          Text (sign ++ digits (n / 10) ++ "." ++ digits (n mod 10))
  end.

End Number.

(* ------------------------------------------------------------------ *)
(** * Arrays and maps *)

Module JsArray.

Section Sort.
Variable A : Type.
(** The comparator of [Array.prototype.sort]: negative when its first
    argument goes first, positive when its second does. *)
Variable cmp : A -> A -> Z.

(** [x] comes from the left of everything in [l]: it passes exactly the
    elements that go strictly before it. *)
Fixpoint insert (x : A) (l : list A) : list A :=
  match l with
  | [] => [x]
  | y :: l' => if (0 <? cmp x y)%Z then y :: insert x l' else x :: y :: l'
  end.

(** [Array.prototype.sort(cmp)], which the language requires to be stable;
    with a consistent comparator the stable sorted arrangement is unique,
    and this insertion sort computes it. *)
Fixpoint sort (l : list A) : list A :=
  match l with
  | [] => []
  | x :: l' => insert x (sort l')
  end.
End Sort.

(** [a.slice(0, n)] *)
Definition slice0 (A : Type) (n : nat) (a : list A) : list A := firstn n a.

End JsArray.

Module JsMap.

Section Map.
Variable V : Type.

(** A [Map<string, V>]: its entries in insertion order. *)
Definition t := list (string * V).

Fixpoint get (k : string) (m : t) : option V :=
  match m with
  | [] => None
  | (k', v) :: m' => if String.eqb k k' then Some v else get k m'
  end.

(** [m.set(k, v)]: an existing key keeps its place, a new one goes last. *)
Fixpoint set (k : string) (v : V) (m : t) : t :=
  match m with
  | [] => [(k, v)]
  | (k', v') :: m' =>
      if String.eqb k k' then (k, v) :: m' else (k', v') :: set k v m'
  end.
(** [m.delete(k)]: the entry of [k] goes, the others keep their order. *)
Fixpoint delete (k : string) (m : t) : t :=
  match m with
  | [] => []
  | (k', v') :: m' =>
      if String.eqb k k' then delete k m' else (k', v') :: delete k m'
  end.
End Map.

End JsMap.

(* ------------------------------------------------------------------ *)
(** * Records and the [/pirs] report *)

Module Tracker.
Import JsString Classifier Estimator.

Record BashRecord : Type := {
  timestamp : Z;
  command : string;
  outputChars : Z;
  estimatedTokens : Z;
  truncated : bool;
  isError : bool
}.

(** The loop of the [tool_result] handler that adds up the lengths of the
    text parts of an output. *)
Definition outputLength (parts : list string) : Z :=
  fold_left (fun n text => n + Z.of_nat (String.length text)) parts 0.

(** The record the [tool_result] handler builds. *)
Definition makeRecord (now : Z) (cmd : string) (chars : Z)
           (trunc err : bool) : BashRecord :=
  {| timestamp := now;
     command := cmd;
     outputChars := chars;
     estimatedTokens := estimateTokens chars;
     truncated := trunc;
     isError := err |}.

(** [records.reduce((sum, r) => sum + r.estimatedTokens, 0)] *)
Definition sumTokens (records : list BashRecord) : Z :=
  fold_left (fun sum r => sum + estimatedTokens r) records 0.

Record GroupData : Type := {
  count : Z;
  totalTokens : Z;
  totalChars : Z;
  commands : list string
}.

(** [c.length > n ? c.slice(0, n - 3) + "..." : c] *)
Definition ellipsis (n : nat) (c : string) : string :=
  if (n <? String.length c)%nat then JsString.slice0 (n - 3) c ++ "..."
  else c.

(** The body of the grouping loop. *)
Definition groupStep (showCommands : bool) (groups : JsMap.t GroupData)
           (r : BashRecord) : JsMap.t GroupData :=
  let group := classifyCommand (command r) in
  let existing :=
    match JsMap.get group groups with
    | Some d => d
    | None => {| count := 0; totalTokens := 0; totalChars := 0;
                 commands := [] |}
    end in
  let existing :=
    {| count := count existing + 1;
       totalTokens := totalTokens existing + estimatedTokens r;
       totalChars := totalChars existing + outputChars r;
       commands :=
         if showCommands && (List.length (commands existing) <? 3)%nat
         then (commands existing ++ [ellipsis 60 (command r)])%list
         else commands existing |} in
  JsMap.set group existing groups.

Definition groupRecords (showCommands : bool) (records : list BashRecord)
  : JsMap.t GroupData :=
  fold_left (groupStep showCommands) records [].

(** [(a, b) => b[1].totalTokens - a[1].totalTokens] *)
Definition byTokensDesc (a b : string * GroupData) : Z :=
  totalTokens (snd b) - totalTokens (snd a).

(** One line of the grouped report: the group, its figures and its share
    of the grand total. *)
Record SummaryLine : Type := {
  group : string;
  data : GroupData;
  pct : Number.fixed
}.

(** [((data.totalTokens / totalTokens) * 100).toFixed(1)] *)
Definition percent (tokens total : Z) : Number.fixed :=
  Number.toFixed1 (Number.of_Z tokens / Number.of_Z total * 100)%float.

Definition summaryLines (showCommands : bool) (records : list BashRecord)
  : list SummaryLine :=
  let groups := groupRecords showCommands records in
  let sorted := JsArray.sort byTokensDesc groups in
  let totalTokens := sumTokens records in
  map (fun e => {| group := fst e; data := snd e;
                   pct := percent (Tracker.totalTokens (snd e)) totalTokens |})
      sorted.

(** What the [/pirs] handler hands to [ctx.ui.notify], before the lines
    are laid out as coloured text. *)
Inductive Report : Type :=
| NoData                        (* "No bash commands recorded yet." *)
| AllCommands (entries : list (BashRecord * string))
              (totalCommands : nat) (totalTokens : Z)
| TopCommands (entries : list (BashRecord * string))
| Summary (showCommands : bool) (lines : list SummaryLine)
          (totalCommands : nat) (totalTokens : Z).

(** [args?.trim() || "summary"] *)
Definition modeOf (args : option string) : string :=
  match args with
  | Some a => if truthy (trim a) then trim a else "summary"
  | None => "summary"
  end.

(** The handler of the [/pirs] command. *)
Definition pirs (args : option string) (records : list BashRecord)
  : Report :=
  if (List.length records =? 0)%nat then NoData
  else
    let mode := modeOf args in
    if String.eqb mode "all" then
      AllCommands (map (fun r => (r, ellipsis 80 (command r))) records)
                  (List.length records) (sumTokens records)
    else if String.eqb mode "top" then
      let sorted :=
        JsArray.slice0 10
          (JsArray.sort (fun a b => estimatedTokens b - estimatedTokens a)
                        records) in
      TopCommands (map (fun r => (r, ellipsis 70 (command r))) sorted)
    else
      let showCommands := String.eqb mode "groups" in
      Summary showCommands (summaryLines showCommands records)
              (List.length records) (sumTokens records).

End Tracker.

(* ------------------------------------------------------------------ *)
(** * The extension: its state and its event handlers

    The state of the closure [export default function (pi)]: the records,
    the pending calls, and what it hands to the host: the entries of the
    session and the widget.  The host is taken at its interface:
    [pi.appendEntry] adds a custom entry at the end of the entries that
    [ctx.sessionManager.getEntries] returns, [ctx.ui.setWidget] replaces
    the widget.  The widget and the export are kept as their figures,
    before they are laid out as text. *)

Module Extension.
Import JsString Estimator Tracker.

(** A part of the content of a tool result: [part.type === "text"] or
    not. *)
Inductive ContentPart : Type :=
| TextPart (text : string)
| OtherPart.

(** A [tool_call] event; [callBash] is
    [isToolCallEventType("bash", event)]. *)
Record ToolCall : Type := {
  callBash : bool;
  callId : string;
  callCommand : string
}.

(** A [tool_result] event; [resultBash] is [isBashToolResult(event)],
    [resultCommand] is [event.input.command], which may be undefined, and
    [resultTruncated] is [!!event.details?.truncation?.truncated]. *)
Record ToolResult : Type := {
  resultBash : bool;
  resultId : string;
  resultCommand : option string;
  resultContent : list ContentPart;
  resultTruncated : bool;
  resultError : bool
}.

(** An entry of the session: a custom entry of type "bash-token-tracker"
    with its data ([None] when the data has no records), or any other
    entry. *)
Inductive Entry : Type :=
| TrackerEntry (data : option (list BashRecord))
| OtherEntry.

(** The figures of the widget line. *)
Record WidgetLine : Type := {
  widgetCalls : nat;
  widgetTokens : Z;
  widgetChars : Z
}.

(** [shared] tells which array [records] is: [Some i] when it is the very
    array held by the entry at index [i] of the session, which
    [session_start] assigns without a copy, [None] when it is an array of
    its own.  What is pushed onto a shared array shows in that entry. *)
Record State : Type := {
  records : list BashRecord;
  pendingCalls : JsMap.t string;
  entries : list Entry;
  widget : option WidgetLine;
  shared : option nat
}.

(** [records.reduce((sum, r) => sum + r.outputChars, 0)] *)
Definition sumChars (rs : list BashRecord) : Z :=
  fold_left (fun sum r => sum + outputChars r) rs 0.

Definition updateWidget (hasUI : bool) (rs : list BashRecord)
           (w : option WidgetLine) : option WidgetLine :=
  if negb hasUI then w
  else if (List.length rs =? 0)%nat then None
  else Some {| widgetCalls := List.length rs;
               widgetTokens := sumTokens rs;
               widgetChars := sumChars rs |}.

(** The loop of [session_start] over the entries: the records of the last
    tracker entry, none when there is no such entry. *)
Definition restore (es : list Entry) : list BashRecord :=
  fold_left
    (fun rs entry =>
       match entry with
       | TrackerEntry (Some saved) => saved
       | TrackerEntry None => []
       | OtherEntry => rs
       end) es [].

(** The same loop, followed for the array it leaves in [records]: the
    array of the last tracker entry when that entry has records, a new
    empty array otherwise.  The second component counts the entries. *)
Definition sharedLoop (es : list Entry) (start : option nat * nat)
  : option nat * nat :=
  fold_left
    (fun (acc : option nat * nat) entry =>
       (match entry with
        | TrackerEntry (Some _) => Some (snd acc)
        | TrackerEntry None => None
        | OtherEntry => fst acc
        end, S (snd acc))) es start.

Definition sharedEntry (es : list Entry) : option nat :=
  fst (sharedLoop es (None, O)).

Definition onSessionStart (hasUI : bool) (st : State) : State :=
  let rs := restore (entries st) in
  {| records := rs;
     pendingCalls := pendingCalls st;
     entries := entries st;
     widget := updateWidget hasUI rs (widget st);
     shared := sharedEntry (entries st) |}.

Definition onToolCall (event : ToolCall) (st : State) : State :=
  if callBash event then
    {| records := records st;
       pendingCalls :=
         JsMap.set (callId event) (callCommand event) (pendingCalls st);
       entries := entries st;
       widget := widget st;
       shared := shared st |}
  else st.

(** The loop over [event.content] that adds up the lengths of the text
    parts. *)
Definition contentChars (content : list ContentPart) : Z :=
  fold_left
    (fun n part =>
       match part with
       | TextPart text => n + Z.of_nat (String.length text)
       | OtherPart => n
       end) content 0.

(** [pendingCalls.get(id) ?? event.input.command ?? "<unknown>"] *)
Definition commandOf (event : ToolResult) (pending : JsMap.t string)
  : string :=
  match JsMap.get (resultId event) pending with
  | Some c => c
  | None =>
      match resultCommand event with
      | Some c => c
      | None => "<unknown>"
      end
  end.

(** The entries once [records] has changed to [rs] in place: the entry
    that holds the shared array holds [rs]; the others are as they
    were. *)
Fixpoint pushShared (i : option nat) (rs : list BashRecord)
         (es : list Entry) : list Entry :=
  match es with
  | [] => []
  | e :: es' =>
      match i with
      | None => es
      | Some O =>
          match e with
          | TrackerEntry (Some _) => TrackerEntry (Some rs)
          | _ => e
          end :: es'
      | Some (S j) => e :: pushShared (Some j) rs es'
      end
  end.

(** [records.push(record)] changes the array in place, and with it the
    entry that shares it; [pi.appendEntry] then adds an entry with a copy,
    [[...records]]. *)
Definition onToolResult (now : Z) (hasUI : bool) (event : ToolResult)
           (st : State) : State :=
  if negb (resultBash event) then st
  else
    let cmd := commandOf event (pendingCalls st) in
    let pending := JsMap.delete (resultId event) (pendingCalls st) in
    let record :=
      makeRecord now cmd (contentChars (resultContent event))
                 (resultTruncated event) (resultError event) in
    let rs := (records st ++ [record])%list in
    {| records := rs;
       pendingCalls := pending;
       entries :=
         (pushShared (shared st) rs (entries st)
          ++ [TrackerEntry (Some rs)])%list;
       widget := updateWidget hasUI rs (widget st);
       shared := shared st |}.

(** The handler of [/pirs-reset]: the new state and the count it
    reports.  [records = []] is a new array: the entries keep theirs. *)
Definition onReset (hasUI : bool) (st : State) : State * nat :=
  let n := List.length (records st) in
  ({| records := [];
      pendingCalls := pendingCalls st;
      entries := (entries st ++ [TrackerEntry (Some [])])%list;
      widget := updateWidget hasUI [] (widget st);
      shared := None |}, n).

(** What [/pirs-export] writes: nothing when there is no record, else the
    summary and the records. *)
Inductive ExportData : Type :=
| NothingToExport
| Exported (totalCommands : nat) (totalTokens totalChars : Z)
           (saved : list BashRecord).

Definition onExport (st : State) : ExportData :=
  if (List.length (records st) =? 0)%nat then NothingToExport
  else Exported (List.length (records st)) (sumTokens (records st))
                (sumChars (records st)) (records st).

(** The events that change the state, each with what the host passes. *)
Inductive Event : Type :=
| SessionStart (hasUI : bool)
| Call (event : ToolCall)
| Result (now : Z) (hasUI : bool) (event : ToolResult)
| ResetCommand (hasUI : bool).

Definition handle (st : State) (ev : Event) : State :=
  match ev with
  | SessionStart hasUI => onSessionStart hasUI st
  | Call event => onToolCall event st
  | Result now hasUI event => onToolResult now hasUI event st
  | ResetCommand hasUI => fst (onReset hasUI st)
  end.

(** The events handled one at a time, in the order of their delivery. *)
Definition handleAll (st : State) (evs : list Event) : State :=
  fold_left handle evs st.

End Extension.


(* ------------------------------------------------------------------ *)
(** * Vocabulary of the statements *)

Module Spec.
Import JsString Classifier Tracker.

(** [t] is the ceiling of [n / d]: the least integer with [n <= d * t]. *)
Definition ceiling_of_quotient (n d t : Z) : Prop :=
  d * (t - 1) < n <= d * t.

(** Every character of [s] satisfies [p]. *)
Fixpoint all_chars (p : ascii -> bool) (s : string) : bool :=
  match s with
  | EmptyString => true
  | String c s' => p c && all_chars p s'
  end.

(** [s] is empty or starts with a character outside [p]: a run of [p]
    characters cannot go on into [s]. *)
Definition stops (p : ascii -> bool) (s : string) : bool :=
  match s with
  | EmptyString => true
  | String c _ => negb (p c)
  end.

(** The entries of a table that come before the first one named [name]. *)
Fixpoint entriesBefore (name : string) (table : list (string * list string))
  : list (string * list string) :=
  match table with
  | [] => []
  | e :: rest =>
      if String.eqb (fst e) name then [] else e :: entriesBefore name rest
  end.

(** The position of the first record of category [g], counting from 0
    (the number of records when there is none). *)
Fixpoint firstIndex (g : string) (records : list BashRecord) : nat :=
  match records with
  | [] => O
  | r :: rest =>
      if String.eqb (classifyCommand (command r)) g then O
      else S (firstIndex g rest)
  end.

(** The records of category [g]. *)
Definition recordsOf (g : string) (records : list BashRecord)
  : list BashRecord :=
  filter (fun r => String.eqb (classifyCommand (command r)) g) records.

(** The sum of a figure over a list. *)
Definition total (A : Type) (f : A -> Z) (l : list A) : Z :=
  fold_right (fun x acc => f x + acc) 0 l.

(** The figure [f] of category [g] in a map, 0 when [g] has no entry. *)
Definition figure (f : GroupData -> Z) (g : string)
           (m : JsMap.t GroupData) : Z :=
  match JsMap.get g m with Some d => f d | None => 0 end.

(** A figure and the matching field of a record: tokens, characters, or
    the count and the constant 1. *)
Inductive tallies : (GroupData -> Z) -> (BashRecord -> Z) -> Prop :=
| tally_tokens : tallies totalTokens estimatedTokens
| tally_chars : tallies totalChars outputChars
| tally_count : tallies count (fun _ => 1).

(** The three records of the end-to-end scenario. *)
Definition scenario : list BashRecord :=
  [ makeRecord 1 "git status" 40 false false;
    makeRecord 2 "pytest -v" 2000 false false;
    makeRecord 3 "echo hi" 8 false false ].

(** One record whose command printed nothing. *)
Definition silent : list BashRecord :=
  [ makeRecord 1 "echo hi" 0 false false ].

End Spec.

Module Props.
Import JsString RegExp Classifier Estimator Tracker Extension.

(** The matcher only reads on: whatever it answers, it got from its
    continuation at a position further in the input. *)
Definition reads_on (body : matcher) : Prop :=
  forall (s : string) (caps : captures) (k : cont) (a : string * captures),
    body s caps k = Some a ->
    exists pre s1 c1, s = pre ++ s1 /\ k s1 c1 = Some a.


(** A record as the [tool_result] handler makes it: a count of characters
    and its estimate. *)
Definition wellFormed (r : BashRecord) : Prop :=
  0 <= outputChars r /\ estimatedTokens r = estimateTokens (outputChars r).

(** The records an entry holds are well formed. *)
Definition entryWellFormed (e : Entry) : Prop :=
  match e with
  | TrackerEntry (Some saved) => Forall wellFormed saved
  | _ => True
  end.

(** The host shows the widget at this event. *)
Definition withUI (ev : Event) : Prop :=
  match ev with
  | SessionStart hasUI | Result _ hasUI _ | ResetCommand hasUI =>
      hasUI = true
  | Call _ => True
  end.

(** An event that only adds to the records: a call or a result. *)
Definition additive (ev : Event) : Prop :=
  match ev with
  | Call _ | Result _ _ _ => True
  | _ => False
  end.

(** The results of bash commands among some events. *)
Definition bashResults (evs : list Event) : nat :=
  List.length
    (filter (fun ev => match ev with
                       | Result _ _ event => resultBash event
                       | _ => false
                       end) evs).

(** The example commands of category [g] in a map, none when [g] has no
    entry. *)
Definition examples (g : string) (m : JsMap.t GroupData) : list string :=
  match JsMap.get g m with Some d => commands d | None => [] end.

(** The text of a content, its text parts put end to end. *)
Fixpoint contentText (content : list ContentPart) : string :=
  match content with
  | [] => ""
  | TextPart text :: rest => text ++ contentText rest
  | OtherPart :: rest => contentText rest
  end.

End Props.

Import JsString RegExp Classifier Estimator Tracker Spec.
Import Extension Props.

Unset Implicit Arguments.

(* ------------------------------------------------------------------ *)
(** * The token estimator *)

Lemma estimateTokens_div (chars : Z) :
  estimateTokens chars = - ((- chars) / 4).
Proof.
  unfold estimateTokens, CHARS_PER_TOKEN, Qceiling, Qfloor.
  unfold Qdiv, Qinv, Qmult, Qopp, inject_Z. simpl.
  rewrite Z.mul_1_r. reflexivity.
Qed.

(** C9: on [0, 10_000_000] [estimateTokens chars] is the ceiling of
    [chars / 4], that is [(chars + 3) / 4] in integer division, and
    [estimateTokens 0 = 0]. *)
Theorem estimateTokens_is_ceiling (chars : Z) :
  0 <= chars <= 10000000 ->
  ceiling_of_quotient chars 4 (estimateTokens chars)
  /\ estimateTokens chars = (chars + 3) / 4
  /\ 0 <= estimateTokens chars
  /\ estimateTokens 0 = 0.
Proof.
  intros H. rewrite !estimateTokens_div. unfold ceiling_of_quotient.
  repeat split; try reflexivity;
    Z.to_euclidean_division_equations; lia.
Qed.

Lemma estimateTokens_is_ceiling_witness :
  ceiling_of_quotient 2000 4 (estimateTokens 2000)
  /\ estimateTokens 2000 = (2000 + 3) / 4
  /\ 0 <= estimateTokens 2000
  /\ estimateTokens 0 = 0.
Proof. apply (estimateTokens_is_ceiling 2000). lia. Defined.

(* ------------------------------------------------------------------ *)
(** * The classifier: the two loops *)

Section Loops.
Variable base : string.

Lemma matchPatterns_true (patterns : list string) :
  matchPatterns patterns base = true ->
  exists p, In p patterns /\ includes base p = true.
Proof.
  induction patterns as [|q rest IH]; simpl; [discriminate|].
  destruct (includes base q) eqn:E; simpl; intros H.
  - exists q. auto.
  - destruct (IH H) as [p [Hin Hp]]. exists p. auto.
Qed.

Lemma matchPatterns_false (patterns : list string) :
  matchPatterns patterns base = false ->
  forall p, In p patterns -> includes base p = false.
Proof.
  induction patterns as [|q rest IH]; simpl; [contradiction|].
  intros H p [<-|Hin]; apply orb_false_iff in H; destruct H; auto.
Qed.

Lemma matchPatterns_In (patterns : list string) (p : string) :
  In p patterns -> includes base p = true ->
  matchPatterns patterns base = true.
Proof.
  intros Hin Hp. destruct (matchPatterns patterns base) eqn:E; [reflexivity|].
  rewrite (matchPatterns_false _ E p Hin) in Hp. discriminate.
Qed.

Lemma classifyStatic_some (table : list (string * list string)) (g : string) :
  classifyStatic table base = Some g ->
  exists patterns p,
    In (g, patterns) table /\ In p patterns /\ includes base p = true.
Proof.
  induction table as [|[n ps] rest IH]; simpl; [discriminate|].
  destruct (matchPatterns ps base) eqn:E; intros H.
  - injection H as <-. destruct (matchPatterns_true _ E) as [p [Hin Hp]].
    exists ps, p. auto.
  - destruct (IH H) as [ps' [p [H1 [H2 H3]]]]. exists ps', p. auto.
Qed.

Lemma classifyStatic_none (table : list (string * list string)) :
  classifyStatic table base = None ->
  forall name patterns p,
    In (name, patterns) table -> In p patterns -> includes base p = false.
Proof.
  induction table as [|[n ps] rest IH]; simpl; [contradiction|].
  destruct (matchPatterns ps base) eqn:E; [discriminate|].
  intros H name patterns p [Heq|Hin] Hp.
  - injection Heq as <- <-. eapply matchPatterns_false; eauto.
  - eapply IH; eauto.
Qed.

(** The entries before the one that answers did not match. *)
Lemma classifyStatic_before (table : list (string * list string))
      (g : string) :
  classifyStatic table base = Some g ->
  forall name patterns p,
    In (name, patterns) (entriesBefore g table) -> In p patterns ->
    includes base p = false.
Proof.
  induction table as [|[n ps] rest IH]; simpl; [discriminate|].
  destruct (String.eqb_spec n g) as [->|Hne]; [contradiction|].
  destruct (matchPatterns ps base) eqn:E; intros H.
  - injection H as ->. contradiction.
  - intros name patterns p [Heq|Hin] Hp.
    + injection Heq as <- <-. eapply matchPatterns_false; eauto.
    + eapply IH; eauto.
Qed.

(** Entries that do not match are passed over. *)
Lemma classifyStatic_skip (pre post : list (string * list string)) :
  (forall name patterns p,
     In (name, patterns) pre -> In p patterns -> includes base p = false) ->
  classifyStatic (pre ++ post)%list base = classifyStatic post base.
Proof.
  induction pre as [|[n ps] pre IH]; simpl; intros H; [reflexivity|].
  destruct (matchPatterns ps base) eqn:E.
  - destruct (matchPatterns_true _ E) as [p [Hin Hp]].
    rewrite (H n ps p) in Hp; auto. discriminate.
  - apply IH. intros name patterns p Hin. apply (H name patterns p). auto.
Qed.

Lemma classifyRunner_some (runners : list string) (g : string) :
  classifyRunner runners base = Some g ->
  exists runner,
    In runner runners /\ startsWith base (runner ++ " ") = true /\
    (g = runner \/ exists sub, sub <> "" /\ g = runner ++ " " ++ sub).
Proof.
  induction runners as [|runner rest IH]; simpl; [discriminate|].
  destruct (startsWith base (runner ++ " ")) eqn:E.
  - intros H. exists runner. split; [auto|]. split; [exact E|].
    destruct (extractRunnerCommand base runner) as [sub|].
    + destruct sub as [|c sub]; simpl in H; injection H as <-; auto.
      right. exists (String c sub). split; [discriminate|reflexivity].
    + injection H as <-. auto.
  - intros H. destruct (IH H) as [r [H1 H2]]. exists r. auto.
Qed.

Lemma classifyRunner_none (runners : list string) :
  classifyRunner runners base = None <->
  forall runner, In runner runners ->
                 startsWith base (runner ++ " ") = false.
Proof.
  induction runners as [|runner rest IH]; simpl.
  - split; [contradiction|reflexivity].
  - destruct (startsWith base (runner ++ " ")) eqn:E.
    + split.
      * destruct (extractRunnerCommand base runner) as [sub|];
          [destruct (truthy sub)|]; discriminate.
      * intros H. rewrite (H runner) in E; auto. discriminate.
    + rewrite IH. split.
      * intros H r [<-|Hin]; auto.
      * intros H r Hin. auto.
Qed.

End Loops.

(** A runner category is never the name "npm" or "npm install". *)
Lemma classifyRunner_not_table (base g : string) :
  classifyRunner RUNNERS base = Some g ->
  g <> "npm" /\ g <> "npm install" /\ g <> "other".
Proof.
  intros H. apply classifyRunner_some in H.
  destruct H as [runner [Hin [_ Hg]]].
  simpl in Hin.
  destruct Hin as [<-|[<-|[<-|[]]]];
    (destruct Hg as [->|[sub [_ ->]]]; simpl; repeat split; discriminate).
Qed.

(* ------------------------------------------------------------------ *)
(** * The classifier: properties *)

(** C8: [classifyCommand] answers on every string, with exactly one of: a
    runner category, when the base command starts with a runner and a
    space; the name of a table entry one of whose patterns the base command
    includes; the literal "other", when no runner starts it and no pattern
    of the table occurs in it.  The empty string is classified "other". *)
Theorem classifyCommand_total :
  classifyCommand "" = "other" /\
  forall command : string,
    let base := extractBaseCommand command in
    (exists runner,
        In runner RUNNERS /\ startsWith base (runner ++ " ") = true /\
        (classifyCommand command = runner \/
         exists sub, sub <> "" /\
                     classifyCommand command = runner ++ " " ++ sub))
    \/ ((forall runner, In runner RUNNERS ->
                        startsWith base (runner ++ " ") = false) /\
        exists patterns p,
          In (classifyCommand command, patterns) COMMAND_GROUPS /\
          In p patterns /\ includes base p = true)
    \/ ((forall runner, In runner RUNNERS ->
                        startsWith base (runner ++ " ") = false) /\
        (forall name patterns p,
            In (name, patterns) COMMAND_GROUPS -> In p patterns ->
            includes base p = false) /\
        classifyCommand command = "other").
Proof.
  split; [vm_compute; reflexivity|].
  intros command base. unfold classifyCommand. fold base.
  destruct (classifyRunner RUNNERS base) as [g|] eqn:ER.
  - left. apply classifyRunner_some in ER. exact ER.
  - right. pose proof (proj1 (classifyRunner_none base RUNNERS) ER) as HR.
    destruct (classifyStatic COMMAND_GROUPS base) as [g|] eqn:ES.
    + left. split; [exact HR|]. apply classifyStatic_some in ES. exact ES.
    + right. split; [exact HR|]. split; [|reflexivity].
      apply classifyStatic_none. exact ES.
Qed.

(** C6: the specific npm entries come before the generic one:
    "npm run build" is "npm run", "npm install" and "npm ci --silent" are
    "npm install", "npm config set x y" is "npm"; and whenever a command is
    classified "npm", its base command includes no pattern of the entries
    "npm install" and "npm run". *)
Theorem npm_specific_before_generic :
  classifyCommand "npm run build" = "npm run" /\
  classifyCommand "npm install" = "npm install" /\
  classifyCommand "npm ci --silent" = "npm install" /\
  classifyCommand "npm config set x y" = "npm" /\
  forall command name patterns p,
    classifyCommand command = "npm" ->
    In (name, patterns) COMMAND_GROUPS ->
    name = "npm install" \/ name = "npm run" ->
    In p patterns ->
    includes (extractBaseCommand command) p = false.
Proof.
  repeat (split; [vm_compute; reflexivity|]).
  intros command name patterns p Hc Hin Hname Hp.
  unfold classifyCommand in Hc.
  destruct (classifyRunner RUNNERS (extractBaseCommand command)) as [g|] eqn:ER.
  - apply classifyRunner_not_table in ER. subst g. tauto.
  - destruct (classifyStatic COMMAND_GROUPS (extractBaseCommand command))
      as [g|] eqn:ES; [subst g|discriminate].
    apply (classifyStatic_before _ _ _ ES name patterns p); [|exact Hp].
    unfold COMMAND_GROUPS in Hin |- *. simpl in Hin |- *.
    destruct Hname as [-> | ->];
      repeat (destruct Hin as [Hin|Hin];
              [first [discriminate Hin | injection Hin as <-; tauto]|]);
      contradiction.
Qed.

Lemma npm_specific_before_generic_witness :
  includes (extractBaseCommand "npm config set x y") "npm ci" = false.
Proof.
  apply (proj2 (proj2 (proj2 (proj2 npm_specific_before_generic)))
           "npm config set x y" "npm install"
           ["npm install"; "npm ci"; "pnpm install"; "pnpm i";
            "bun install"; "bun add"] "npm ci").
  - vm_compute; reflexivity.
  - simpl; tauto.
  - left; reflexivity.
  - simpl; tauto.
Defined.

(** C10: "pnpm i" is a pattern of the entry "npm install" and patterns are
    matched as substrings: a command whose base command includes "pnpm i",
    starts with no runner and includes no pattern of an earlier entry is
    classified "npm install"; so is "pnpm init". *)
Theorem pnpm_i_is_npm_install :
  classifyCommand "pnpm init" = "npm install" /\
  forall command : string,
    let base := extractBaseCommand command in
    includes base "pnpm i" = true ->
    (forall runner, In runner RUNNERS ->
                    startsWith base (runner ++ " ") = false) ->
    (forall name patterns p,
        In (name, patterns) (entriesBefore "npm install" COMMAND_GROUPS) ->
        In p patterns -> includes base p = false) ->
    classifyCommand command = "npm install".
Proof.
  split; [vm_compute; reflexivity|].
  intros command base Hinc HR Hbefore.
  unfold classifyCommand. fold base.
  rewrite (proj2 (classifyRunner_none base RUNNERS) HR).
  change COMMAND_GROUPS
    with (entriesBefore "npm install" COMMAND_GROUPS
          ++ skipn 5 COMMAND_GROUPS)%list.
  rewrite (classifyStatic_skip base _ _ Hbefore).
  cbn [skipn COMMAND_GROUPS classifyStatic].
  rewrite (matchPatterns_In base _ "pnpm i"); [reflexivity| |exact Hinc].
  simpl; tauto.
Qed.

Lemma pnpm_i_is_npm_install_witness :
  classifyCommand "pnpm init --yes" = "npm install".
Proof.
  apply (proj2 pnpm_i_is_npm_install "pnpm init --yes").
  - vm_compute; reflexivity.
  - intros runner Hin. simpl in Hin.
    destruct Hin as [<-|[<-|[<-|[]]]]; vm_compute; reflexivity.
  - intros name patterns p Hin Hp. simpl in Hin.
    repeat (destruct Hin as [Hin|Hin];
            [injection Hin as <- <-; simpl in Hp;
             repeat (destruct Hp as [<-|Hp]; [vm_compute; reflexivity|]);
             contradiction|]).
    contradiction.
Defined.

(** C2, at the chained prefix "cd a && cd b && ls": the pattern takes one
    delimiter character, so only "cd a &" is removed and the base command
    still starts with the second "&" and the second cd clause; chains
    separated by ";" or by a single "&" are removed whole.  A runner
    behind "cd /x &&" is therefore not seen, while behind "cd /x;" it
    is. *)
Theorem extractBaseCommand_double_ampersand :
  extractBaseCommand "cd a && cd b && ls" = "& cd b && ls" /\
  extractBaseCommand "cd /tmp && pytest tests/" = "& pytest tests/" /\
  extractBaseCommand "cd a; cd b; ls" = "ls" /\
  extractBaseCommand "cd a & cd b & ls" = "ls" /\
  classifyCommand "cd /x && npx foo" = "other" /\
  classifyCommand "cd /x; npx foo" = "npx foo".
Proof. repeat split; vm_compute; reflexivity. Qed.

(* ------------------------------------------------------------------ *)
(** * The report: the scenario and the empty-store guard *)

(** C3: the three records of the scenario are classified "git", "pytest"
    and "other", estimated at 10, 500 and 2 tokens, 512 in all, and the
    grouped summary lists pytest (500, 97.7%), git (10, 2.0%), other
    (2, 0.4%) in this order. *)
Theorem scenario_grouped_summary :
  map (fun r => classifyCommand (command r)) scenario
  = ["git"; "pytest"; "other"]
  /\ map estimatedTokens scenario = [10; 500; 2]
  /\ sumTokens scenario = 512
  /\ map (fun l => (group l, totalTokens (data l), pct l))
         (summaryLines false scenario)
     = [ ("pytest", 500, Number.Text "97.7");
         ("git", 10, Number.Text "2.0");
         ("other", 2, Number.Text "0.4") ]
  /\ exists lines,
       pirs None scenario = Summary false lines 3 512
       /\ map group lines = ["pytest"; "git"; "other"].
Proof.
  repeat (split; [vm_compute; reflexivity|]).
  eexists. split; vm_compute; reflexivity.
Qed.


(** The handler answers "no data" exactly when there is no record,
    whatever the mode, and then the grand total is zero; every non-empty
    sequence is reported, with its number of records. *)
Theorem no_data_iff_no_records :
  forall (args : option string) (records : list BashRecord),
    (pirs args records = NoData <-> records = [])
    /\ (records = [] -> sumTokens records = 0)
    /\ (records <> [] ->
        exists lines,
          pirs (Some "summary") records
          = Summary false lines (List.length records) (sumTokens records)).
Proof.
  intros args records. destruct records as [|r records].
  - split; [split; reflexivity|]. split; [reflexivity|]. intros H. congruence.
  - split; [|split].
    + unfold pirs. simpl List.length. cbn [Nat.eqb].
      split; [|discriminate].
      destruct (String.eqb (modeOf args) "all"); [discriminate|].
      destruct (String.eqb (modeOf args) "top"); discriminate.
    + discriminate.
    + intros _. eexists. reflexivity.
Qed.

Lemma no_data_iff_no_records_witness :
  pirs (Some "groups") [] = NoData /\ sumTokens [] = 0.
Proof.
  split.
  - apply (proj1 (no_data_iff_no_records (Some "groups") [])). reflexivity.
  - apply (proj1 (proj2 (no_data_iff_no_records None []))). reflexivity.
Defined.

(* ------------------------------------------------------------------ *)
(** * Maps in insertion order *)

Section MapFacts.
Variable V : Type.
Implicit Types (m : JsMap.t V) (k g : string) (v : V).

Lemma get_set k v m g :
  JsMap.get g (JsMap.set k v m)
  = if String.eqb g k then Some v else JsMap.get g m.
Proof.
  induction m as [|[k' v'] m IH]; simpl.
  - destruct (String.eqb g k); reflexivity.
  - destruct (String.eqb_spec k k') as [<-|Hk]; simpl.
    + destruct (String.eqb g k); reflexivity.
    + rewrite IH. destruct (String.eqb_spec g k) as [E|Hg];
        [|reflexivity].
      rewrite E. destruct (String.eqb_spec k k'); [contradiction|reflexivity].
Qed.

Lemma get_None_keys k m :
  JsMap.get k m = None <-> ~ In k (map fst m).
Proof.
  induction m as [|[k' v'] m IH]; simpl; [tauto|].
  destruct (String.eqb_spec k k') as [->|Hk].
  - split; [discriminate|]. intros H. exfalso. apply H. auto.
  - rewrite IH. split.
    + intros H [E|E]; [congruence|tauto].
    + intros H E. apply H. auto.
Qed.

Lemma get_Some_In k v m : JsMap.get k m = Some v -> In (k, v) m.
Proof.
  induction m as [|[k' v'] m IH]; simpl; [discriminate|].
  destruct (String.eqb_spec k k') as [->|Hk].
  - intros H. injection H as ->. auto.
  - auto.
Qed.

Lemma In_get k v m : NoDup (map fst m) -> In (k, v) m -> JsMap.get k m = Some v.
Proof.
  induction m as [|[k' v'] m IH]; simpl; [contradiction|].
  intros Hnd [E|Hin].
  - injection E as -> ->. rewrite String.eqb_refl. reflexivity.
  - inversion Hnd as [|? ? Hnotin Hnd']; subst.
    destruct (String.eqb_spec k k') as [->|Hk]; [|auto].
    exfalso. apply Hnotin. change k' with (fst (k', v)).
    apply in_map. exact Hin.
Qed.

(** [set] keeps the place of a key that is there and puts a new key
    last. *)
Lemma keys_set k v m :
  map fst (JsMap.set k v m)
  = match JsMap.get k m with
    | Some _ => map fst m
    | None => (map fst m ++ [k])%list
    end.
Proof.
  induction m as [|[k' v'] m IH]; simpl; [reflexivity|].
  destruct (String.eqb_spec k k') as [<-|Hk]; simpl; [reflexivity|].
  rewrite IH. destruct (JsMap.get k m); reflexivity.
Qed.

Lemma keys_set_NoDup k v m :
  NoDup (map fst m) -> NoDup (map fst (JsMap.set k v m)).
Proof.
  intros H. rewrite keys_set. destruct (JsMap.get k m) eqn:E; [exact H|].
  apply get_None_keys in E.
  apply NoDup_rev in H. rewrite <- (rev_involutive (_ ++ _)%list).
  apply NoDup_rev. rewrite rev_app_distr. simpl. constructor; [|exact H].
  rewrite <- in_rev. exact E.
Qed.

(** The sum of a figure over the entries after a [set]. *)
Lemma total_set (F : V -> Z) k v m :
  total (fun e => F (snd e)) (JsMap.set k v m)
  = total (fun e => F (snd e)) m + F v
    - match JsMap.get k m with Some d => F d | None => 0 end.
Proof.
  induction m as [|[k' v'] m IH]; simpl; [lia|].
  destruct (String.eqb_spec k k') as [<-|Hk]; simpl; [lia|].
  rewrite IH. lia.
Qed.

End MapFacts.

(* ------------------------------------------------------------------ *)
(** * Sums and sorting *)

Lemma reduce_total (A : Type) (f : A -> Z) (l : list A) (a : Z) :
  fold_left (fun sum r => sum + f r) l a = a + total f l.
Proof.
  revert a. induction l as [|x l IH]; simpl; intros a; [lia|].
  rewrite IH. lia.
Qed.

Lemma sumTokens_total (records : list BashRecord) :
  sumTokens records = total estimatedTokens records.
Proof. unfold sumTokens. rewrite reduce_total. lia. Qed.

Lemma total_ones (A : Type) (l : list A) :
  total (fun _ => 1) l = Z.of_nat (List.length l).
Proof.
  induction l as [|x l IH]; [reflexivity|].
  unfold total in *. cbn [fold_right List.length]. lia.
Qed.

Lemma total_map (A B : Type) (h : A -> B) (f : B -> Z) (l : list A) :
  total f (map h l) = total (fun x => f (h x)) l.
Proof. induction l as [|x l IH]; simpl; congruence. Qed.

Lemma total_Permutation (A : Type) (f : A -> Z) (l l' : list A) :
  Permutation l l' -> total f l = total f l'.
Proof. induction 1; simpl; lia. Qed.

Section SortFacts.
Variable A : Type.
Variable cmp : A -> A -> Z.

Lemma insert_Permutation (x : A) (l : list A) :
  Permutation (JsArray.insert cmp x l) (x :: l).
Proof.
  induction l as [|y l IH]; simpl; [reflexivity|].
  destruct (0 <? cmp x y)%Z; [|reflexivity].
  rewrite IH. apply perm_swap.
Qed.

Lemma sort_Permutation (l : list A) : Permutation (JsArray.sort cmp l) l.
Proof.
  induction l as [|x l IH]; simpl; [reflexivity|].
  rewrite insert_Permutation. constructor. exact IH.
Qed.

End SortFacts.

(* ------------------------------------------------------------------ *)
(** * The grouping loop *)

Section Grouping.
Variable showCommands : bool.

Local Abbreviation step := (groupStep showCommands).
Local Abbreviation category r := (classifyCommand (command r)).

Lemma step_get (m : JsMap.t GroupData) (r : BashRecord) (g : string) :
  JsMap.get g (step m r)
  = if String.eqb (category r) g
    then JsMap.get (category r) (step m r)
    else JsMap.get g m.
Proof.
  unfold groupStep at 1. rewrite get_set. rewrite String.eqb_sym.
  destruct (String.eqb_spec (category r) g) as [<-|Hne]; [|reflexivity].
  unfold groupStep. rewrite get_set, String.eqb_refl. reflexivity.
Qed.

Lemma step_get_same (m : JsMap.t GroupData) (r : BashRecord) :
  exists d,
    JsMap.get (category r) (step m r) = Some d
    /\ totalTokens d = figure totalTokens (category r) m + estimatedTokens r
    /\ totalChars d = figure totalChars (category r) m + outputChars r
    /\ count d = figure count (category r) m + 1.
Proof.
  unfold groupStep, figure. rewrite get_set, String.eqb_refl.
  eexists. split; [reflexivity|].
  destruct (JsMap.get (category r) m); simpl; auto.
Qed.

Lemma step_figure f fr (T : tallies f fr) m r g :
  figure f g (step m r)
  = figure f g m + (if String.eqb (category r) g then fr r else 0).
Proof.
  unfold figure at 1. rewrite step_get.
  destruct (String.eqb_spec (category r) g) as [<-|Hne].
  - destruct (step_get_same m r) as [d [-> [H1 [H2 H3]]]].
    destruct T; assumption.
  - unfold figure. lia.
Qed.

Lemma step_total f fr (T : tallies f fr) m r :
  total (fun e => f (snd e)) (step m r)
  = total (fun e => f (snd e)) m + fr r.
Proof.
  pose proof (step_figure f fr T m r (category r)) as H.
  rewrite String.eqb_refl in H. unfold figure in H.
  unfold groupStep in *. rewrite total_set.
  rewrite get_set, String.eqb_refl in H.
  destruct (JsMap.get (category r) m); lia.
Qed.

Lemma fold_figure f fr (T : tallies f fr) records m g :
  figure f g (fold_left step records m)
  = figure f g m + total fr (recordsOf g records).
Proof.
  revert m. induction records as [|r records IH]; intros m; simpl.
  - lia.
  - rewrite IH, (step_figure f fr T). unfold recordsOf.
    destruct (String.eqb (category r) g); simpl; lia.
Qed.

Lemma fold_total f fr (T : tallies f fr) records m :
  total (fun e => f (snd e)) (fold_left step records m)
  = total (fun e => f (snd e)) m + total fr records.
Proof.
  revert m. induction records as [|r records IH]; intros m; simpl.
  - lia.
  - rewrite IH, (step_total f fr T). lia.
Qed.

Lemma fold_NoDup records m :
  NoDup (map fst m) -> NoDup (map fst (fold_left step records m)).
Proof.
  revert m. induction records as [|r records IH]; intros m H; simpl.
  - exact H.
  - apply IH. unfold groupStep. apply keys_set_NoDup. exact H.
Qed.

Lemma fold_keeps records m g :
  JsMap.get g m <> None -> JsMap.get g (fold_left step records m) <> None.
Proof.
  revert m. induction records as [|r records IH]; intros m H; simpl.
  - exact H.
  - apply IH. rewrite step_get.
    destruct (String.eqb (category r) g); [|exact H].
    destruct (step_get_same m r) as [d [-> _]]. discriminate.
Qed.

Lemma fold_has records m r :
  In r records -> JsMap.get (category r) (fold_left step records m) <> None.
Proof.
  revert m. induction records as [|r' records IH]; intros m; simpl.
  - contradiction.
  - intros [->|Hin]; [|auto].
    apply fold_keeps. destruct (step_get_same m r) as [d [-> _]].
    discriminate.
Qed.

End Grouping.

(* ------------------------------------------------------------------ *)
(** * The grouped summary: conservation *)

Lemma summaryLines_groups (showCommands : bool) (records : list BashRecord) :
  map (fun l => (group l, data l)) (summaryLines showCommands records)
  = JsArray.sort byTokensDesc (groupRecords showCommands records).
Proof.
  unfold summaryLines. rewrite map_map. simpl.
  induction (JsArray.sort byTokensDesc (groupRecords showCommands records))
    as [|[g d] l IH]; simpl; congruence.
Qed.

Lemma summaryLines_Permutation (showCommands : bool)
      (records : list BashRecord) :
  Permutation (map (fun l => (group l, data l))
                   (summaryLines showCommands records))
              (groupRecords showCommands records).
Proof. rewrite summaryLines_groups. apply sort_Permutation. Qed.

Lemma summaryLines_total (showCommands : bool) (records : list BashRecord)
      (f : GroupData -> Z) (fr : BashRecord -> Z) :
  tallies f fr ->
  total (fun l => f (data l)) (summaryLines showCommands records)
  = total fr records.
Proof.
  intros T.
  transitivity (total (fun e : string * GroupData => f (snd e))
                  (map (fun l => (group l, data l))
                       (summaryLines showCommands records))).
  - rewrite total_map. reflexivity.
  - rewrite (total_Permutation _ (fun e : string * GroupData => f (snd e))
               _ _ (summaryLines_Permutation showCommands records)).
    unfold groupRecords. rewrite (fold_total showCommands f fr T).
    simpl. lia.
Qed.

Lemma summaryLines_figure (showCommands : bool) (records : list BashRecord)
      (f : GroupData -> Z) (fr : BashRecord -> Z) (l : SummaryLine) :
  tallies f fr ->
  In l (summaryLines showCommands records) ->
  f (data l) = total fr (recordsOf (group l) records).
Proof.
  intros T Hin.
  assert (In (group l, data l) (groupRecords showCommands records)) as H.
  { apply (Permutation_in _ (summaryLines_Permutation showCommands records)).
    apply (in_map (fun l : SummaryLine => (group l, data l))). exact Hin. }
  apply In_get in H.
  - pose proof (fold_figure showCommands f fr T records [] (group l)) as F.
    fold (groupRecords showCommands records) in F.
    unfold figure in F. rewrite H in F. simpl in F. exact F.
  - unfold groupRecords. apply fold_NoDup. constructor.
Qed.

(** C4: in the grouped summary the totals of the categories add up to the
    totals of the records, for tokens, characters and calls; the categories
    are distinct, every record's category is listed, and a category's
    figures are the sums over the records of that category. *)
Theorem grouped_summary_conserves_totals :
  forall (showCommands : bool) (records : list BashRecord),
    let lines := summaryLines showCommands records in
    total (fun l => totalTokens (data l)) lines = sumTokens records
    /\ total (fun l => totalChars (data l)) lines = total outputChars records
    /\ total (fun l => count (data l)) lines
       = Z.of_nat (List.length records)
    /\ NoDup (map group lines)
    /\ (forall r, In r records ->
                  In (classifyCommand (command r)) (map group lines))
    /\ (forall l, In l lines ->
          totalTokens (data l)
          = total estimatedTokens (recordsOf (group l) records)
          /\ totalChars (data l)
             = total outputChars (recordsOf (group l) records)
          /\ count (data l)
             = Z.of_nat (List.length (recordsOf (group l) records))).
Proof.
  intros showCommands records lines. subst lines.
  pose proof (summaryLines_Permutation showCommands records) as P.
  assert (Permutation (map group (summaryLines showCommands records))
                      (map fst (groupRecords showCommands records))) as PK.
  { apply (Permutation_map fst) in P. rewrite map_map in P. exact P. }
  split; [|split; [|split; [|split; [|split]]]].
  - rewrite sumTokens_total. apply summaryLines_total. constructor.
  - apply summaryLines_total. constructor.
  - rewrite <- total_ones. apply summaryLines_total. constructor.
  - apply (Permutation_NoDup (Permutation_sym PK)).
    unfold groupRecords. apply fold_NoDup. constructor.
  - intros r Hin. apply (Permutation_in _ (Permutation_sym PK)).
    pose proof (fold_has showCommands records [] r Hin) as H.
    fold (groupRecords showCommands records) in H.
    destruct (in_dec string_dec (classifyCommand (command r))
                (map fst (groupRecords showCommands records)))
      as [Hk|Hk]; [exact Hk|].
    apply get_None_keys in Hk. contradiction.
  - intros l Hin. repeat split.
    + apply (summaryLines_figure showCommands records
               totalTokens estimatedTokens); [constructor|exact Hin].
    + apply (summaryLines_figure showCommands records
               totalChars outputChars); [constructor|exact Hin].
    + rewrite <- total_ones.
      apply (summaryLines_figure showCommands records count (fun _ => 1));
        [constructor|exact Hin].
Qed.

Lemma grouped_summary_conserves_totals_witness :
  In "pytest" (map group (summaryLines false scenario)).
Proof.
  apply (proj1 (proj2 (proj2 (proj2 (proj2
           (grouped_summary_conserves_totals false scenario)))))
           (makeRecord 2 "pytest -v" 2000 false false)).
  simpl. tauto.
Defined.

(* ------------------------------------------------------------------ *)
(** * The grouped summary: order *)

Lemma firstIndex_le (g : string) (records : list BashRecord) :
  (firstIndex g records <= List.length records)%nat.
Proof.
  induction records as [|r records IH]; simpl; [lia|].
  destruct (String.eqb (classifyCommand (command r)) g); lia.
Qed.

(** One more record at the end moves the first index of no category that
    already has a record. *)
Lemma firstIndex_snoc (g : string) (records : list BashRecord)
      (r : BashRecord) :
  firstIndex g (records ++ [r])%list
  = if (firstIndex g records <? List.length records)%nat
    then firstIndex g records
    else if String.eqb (classifyCommand (command r)) g
         then List.length records
         else S (List.length records).
Proof.
  induction records as [|r' records IH]; simpl.
  - destruct (String.eqb (classifyCommand (command r)) g); reflexivity.
  - destruct (String.eqb (classifyCommand (command r')) g); [reflexivity|].
    rewrite IH.
    change (S (firstIndex g records) <? S (List.length records))%nat
      with (firstIndex g records <? List.length records)%nat.
    destruct (firstIndex g records <? List.length records)%nat;
      [reflexivity|].
    destruct (String.eqb (classifyCommand (command r)) g); reflexivity.
Qed.

Section SortedFacts.
Variable A : Type.

Lemma StronglySorted_snoc (R : A -> A -> Prop) (l : list A) (y : A) :
  StronglySorted R l -> Forall (fun x => R x y) l ->
  StronglySorted R (l ++ [y])%list.
Proof.
  induction 1 as [|x l HS IH HF]; intros Hy; simpl.
  - constructor; constructor.
  - inversion Hy as [|? ? Hxy Hl]; subst. constructor; [auto|].
    apply Forall_app. split; [exact HF|]. constructor; [exact Hxy|constructor].
Qed.

Lemma StronglySorted_In (R R' : A -> A -> Prop) (l : list A) :
  (forall x y, In x l -> In y l -> R x y -> R' x y) ->
  StronglySorted R l -> StronglySorted R' l.
Proof.
  intros H HS. induction HS as [|x l HS IH HF].
  - constructor.
  - constructor.
    + apply IH. intros a b Ha Hb. apply H; simpl; auto.
    + rewrite Forall_forall in *. intros y Hy.
      apply H; simpl; auto.
Qed.

Lemma StronglySorted_map (B : Type) (h : A -> B) (R : B -> B -> Prop)
      (l : list A) :
  StronglySorted (fun a b => R (h a) (h b)) l <->
  StronglySorted R (map h l).
Proof.
  induction l as [|x l IH]; simpl.
  - split; constructor.
  - split; intros H; inversion H as [|? ? HS HF]; subst; constructor.
    + apply IH. exact HS.
    + rewrite Forall_map. exact HF.
    + apply IH. exact HS.
    + rewrite Forall_map in HF. exact HF.
Qed.

End SortedFacts.

(** The groups of the map stand in the order in which their first records
    were met, and the groups are the categories that have a record. *)
Lemma groupRecords_encounter_order (showCommands : bool)
      (records : list BashRecord) :
  let m := groupRecords showCommands records in
  (forall g, JsMap.get g m <> None <->
             (firstIndex g records < List.length records)%nat)
  /\ StronglySorted
       (fun g1 g2 => (firstIndex g1 records < firstIndex g2 records)%nat)
       (map fst m).
Proof.
  induction records as [|r records IH] using rev_ind.
  - simpl. split; [|constructor].
    intros g. split; [congruence|lia].
  - cbv zeta in *. unfold groupRecords in *. rewrite fold_left_app.
    simpl fold_left.
    set (m := fold_left (groupStep showCommands) records []) in *.
    destruct IH as [Hkeys Hsorted].
    assert (forall g, In g (map fst m) ->
                      firstIndex g (records ++ [r])%list
                      = firstIndex g records
                      /\ (firstIndex g records < List.length records)%nat)
      as Hold.
    { intros g Hin. rewrite firstIndex_snoc.
      assert (JsMap.get g m <> None) as Hg.
      { intros E. apply get_None_keys in E. contradiction. }
      apply Hkeys in Hg. split; [|exact Hg].
      apply Nat.ltb_lt in Hg. rewrite Hg. reflexivity. }
    split.
    + intros g. rewrite step_get, length_app. simpl List.length.
      rewrite firstIndex_snoc.
      pose proof (firstIndex_le g records) as Hle.
      destruct (String.eqb_spec (classifyCommand (command r)) g) as [E|E].
      * destruct (step_get_same showCommands m r) as [d [-> _]].
        split; [intros _|discriminate].
        destruct (firstIndex g records <? List.length records)%nat eqn:L.
        -- apply Nat.ltb_lt in L. lia.
        -- lia.
      * rewrite Hkeys.
        destruct (firstIndex g records <? List.length records)%nat eqn:L.
        -- apply Nat.ltb_lt in L. lia.
        -- apply Nat.ltb_ge in L. lia.
    + unfold groupStep at 1. rewrite keys_set.
      assert (StronglySorted
                (fun g1 g2 =>
                   (firstIndex g1 (records ++ [r])%list
                    < firstIndex g2 (records ++ [r])%list)%nat)
                (map fst m)) as Hsorted'.
      { revert Hsorted. apply StronglySorted_In.
        intros x y Hx Hy Hxy.
        destruct (Hold x Hx) as [-> _]. destruct (Hold y Hy) as [-> _].
        exact Hxy. }
      destruct (JsMap.get (classifyCommand (command r)) m) eqn:G;
        [exact Hsorted'|].
      apply StronglySorted_snoc; [exact Hsorted'|].
      rewrite Forall_forall. intros x Hx.
      destruct (Hold x Hx) as [-> Hlt].
      rewrite firstIndex_snoc, String.eqb_refl.
      assert (~ (firstIndex (classifyCommand (command r)) records
                 < List.length records)%nat) as Hnew.
      { intros L. apply Hkeys in L. contradiction. }
      destruct (firstIndex (classifyCommand (command r)) records
                <? List.length records)%nat eqn:L.
      * apply Nat.ltb_lt in L. contradiction.
      * exact Hlt.
Qed.

Section StableSort.
Variable A : Type.
Variable key : A -> Z.        (* sorted by [key], largest first *)
Variable pos : A -> nat.      (* the position before the sort *)

Let cmp (a b : A) : Z := key b - key a.

(** Larger key first; equal keys in the order of the positions. *)
Let before (a b : A) : Prop :=
  key b < key a \/ (key a = key b /\ (pos a < pos b)%nat).

Lemma insert_sorted (x : A) (l : list A) :
  StronglySorted before l ->
  Forall (fun y => (pos x < pos y)%nat) l ->
  StronglySorted before (JsArray.insert cmp x l).
Proof.
  induction 1 as [|y l HS IH HF]; intros Hpos; simpl.
  - constructor; constructor.
  - inversion Hpos as [|? ? Hxy Hl]; subst.
    unfold cmp at 1. destruct (Z.ltb_spec 0 (key y - key x)) as [L|L].
    + constructor; [auto|].
      apply (Permutation_Forall
               (Permutation_sym (insert_Permutation A cmp x l))).
      constructor; [left; lia|exact HF].
    + constructor; [constructor; assumption|].
      constructor.
      * unfold before. lia.
      * rewrite Forall_forall in *. intros z Hz.
        specialize (HF z Hz). specialize (Hl z Hz).
        unfold before in *. lia.
Qed.

Lemma sort_sorted (l : list A) :
  StronglySorted (fun a b => (pos a < pos b)%nat) l ->
  StronglySorted before (JsArray.sort cmp l).
Proof.
  induction 1 as [|x l HS IH HF]; simpl.
  - constructor.
  - apply insert_sorted; [exact IH|].
    apply (Permutation_Forall
             (Permutation_sym (sort_Permutation A cmp l))).
    exact HF.
Qed.

End StableSort.

(** The lines of the grouped summary are sorted by total tokens, largest
    first, and of two categories with equal totals the one whose first
    record came earlier in the sequence is listed first. *)
Theorem grouped_summary_sorted_stable :
  forall (showCommands : bool) (records : list BashRecord),
    StronglySorted
      (fun a b =>
         totalTokens (data b) < totalTokens (data a)
         \/ (totalTokens (data a) = totalTokens (data b)
             /\ (firstIndex (group a) records
                 < firstIndex (group b) records)%nat))
      (summaryLines showCommands records).
Proof.
  intros showCommands records.
  apply (StronglySorted_map SummaryLine (string * GroupData)
           (fun l => (group l, data l))
           (fun a b =>
              totalTokens (snd b) < totalTokens (snd a)
              \/ (totalTokens (snd a) = totalTokens (snd b)
                  /\ (firstIndex (fst a) records
                      < firstIndex (fst b) records)%nat))).
  rewrite summaryLines_groups.
  apply (sort_sorted (string * GroupData) (fun e => totalTokens (snd e))
           (fun e => firstIndex (fst e) records)).
  apply (StronglySorted_map (string * GroupData) string fst
           (fun g1 g2 =>
              (firstIndex g1 records < firstIndex g2 records)%nat)).
  apply (groupRecords_encounter_order showCommands records).
Qed.

(* ------------------------------------------------------------------ *)
(** * Strings and the matcher on runs of a character class *)

Lemma append_assoc (a b c : string) : (a ++ b) ++ c = a ++ (b ++ c).
Proof. induction a as [|x a IH]; simpl; congruence. Qed.

Lemma append_empty_r (a : string) : a ++ "" = a.
Proof. induction a as [|x a IH]; simpl; congruence. Qed.

Lemma length_append (a b : string) :
  String.length (a ++ b) = (String.length a + String.length b)%nat.
Proof. induction a as [|x a IH]; simpl; congruence. Qed.

Lemma substring_append (a b : string) :
  String.substring 0 (String.length a) (a ++ b) = a.
Proof.
  induction a as [|x a IH]; simpl.
  - destruct b; reflexivity.
  - congruence.
Qed.

Lemma consumed_append (a b : string) : consumed (a ++ b) b = a.
Proof.
  unfold consumed. rewrite length_append.
  replace (String.length a + String.length b - String.length b)%nat
    with (String.length a) by lia.
  apply substring_append.
Qed.

Lemma all_chars_append (p : ascii -> bool) (a b : string) :
  all_chars p (a ++ b) = all_chars p a && all_chars p b.
Proof.
  induction a as [|x a IH]; simpl; [reflexivity|].
  rewrite IH. apply andb_assoc.
Qed.

Lemma startsWith_append (a b : string) : startsWith (a ++ b) a = true.
Proof.
  unfold startsWith. induction a as [|x a IH]; simpl.
  - destruct b; reflexivity.
  - destruct (ascii_dec x x); [exact IH|contradiction].
Qed.

Lemma pkg_char_not_space (c : ascii) :
  is_pkg_char c = true -> is_space c = false.
Proof.
  destruct c as [[] [] [] [] [] [] [] []]; vm_compute; congruence.
Qed.

Lemma version_char_not_at (c : ascii) :
  is_version_char c = true -> Ascii.eqb "@" c = false.
Proof.
  destruct c as [[] [] [] [] [] [] [] []]; vm_compute; congruence.
Qed.

Lemma star_loop_S (body : matcher) (k : cont) (fuel : nat) (s : string)
      (caps : captures) :
  star_loop body k (S fuel) s caps
  = match body s caps
            (fun s1 c1 =>
               if (String.length s1 <? String.length s)%nat
               then star_loop body k fuel s1 c1 else None) with
    | Some a => Some a
    | None => k s caps
    end.
Proof. reflexivity. Qed.

Lemma run_Class (len0 : nat) (p : ascii -> bool) (s : string)
      (caps : captures) (k : cont) :
  run len0 (Class p) s caps k
  = match s with
    | String c s' => if p c then k s' caps else None
    | EmptyString => None
    end.
Proof. reflexivity. Qed.

Lemma run_Plus (len0 : nat) (r : regex) (s : string) (caps : captures)
      (k : cont) :
  run len0 (Plus r) s caps k
  = run len0 r s caps
        (fun s1 c1 => star_loop (run len0 r) k (String.length s1) s1 c1).
Proof. reflexivity. Qed.

Lemma run_Eps (len0 : nat) (s : string) (caps : captures) (k : cont) :
  run len0 Eps s caps k = k s caps.
Proof. reflexivity. Qed.

Lemma run_Seq (len0 : nat) (r1 r2 : regex) (s : string) (caps : captures)
      (k : cont) :
  run len0 (Seq r1 r2) s caps k
  = run len0 r1 s caps (fun s1 c1 => run len0 r2 s1 c1 k).
Proof. reflexivity. Qed.

Lemma exec_from_unfold (len0 : nat) (r : regex) (i : nat) (s : string) :
  exec_from len0 r i s
  = match run len0 r s [] (fun s1 c1 => Some (s1, c1)) with
    | Some (s1, c1) => Some (MatchResult i s1 c1)
    | None =>
        match s with
        | EmptyString => None
        | String _ s' => exec_from len0 r (S i) s'
        end
    end.
Proof. destruct s; reflexivity. Qed.

Section ClassRuns.
Variable len0 : nat.
Variable p : ascii -> bool.
Variable k : cont.

Lemma run_Lit (lit s : string) (caps : captures) (k' : cont) :
  run len0 (Lit lit) (lit ++ s) caps k' = k' s caps.
Proof.
  revert k'. induction lit as [|c lit IH]; intros k'; simpl.
  - reflexivity.
  - rewrite Ascii.eqb_refl. apply IH.
Qed.

(** Where no character of the class follows, [*] takes nothing. *)
Lemma star_class_stop (fuel : nat) (s : string) (caps : captures) :
  stops p s = true ->
  star_loop (run len0 (Class p)) k fuel s caps = k s caps.
Proof.
  intros H. destruct fuel as [|fuel]; [reflexivity|].
  rewrite star_loop_S, run_Class. destruct s as [|c s]; [reflexivity|].
  simpl in H. apply negb_true_iff in H. rewrite H. reflexivity.
Qed.

(** [*] takes a whole run of the class when the continuation accepts what
    follows the run. *)
Lemma star_class_greedy (u : string) :
  forall (fuel : nat) (rest : string) (caps : captures)
         (a : string * captures),
    all_chars p u = true -> stops p rest = true ->
    (String.length (u ++ rest) <= fuel)%nat ->
    k rest caps = Some a ->
    star_loop (run len0 (Class p)) k fuel (u ++ rest) caps = Some a.
Proof.
  induction u as [|c u IH]; intros fuel rest caps a Hall Hstop Hfuel Hk.
  - simpl. rewrite star_class_stop; assumption.
  - simpl in Hall. apply andb_true_iff in Hall. destruct Hall as [Hc Hu].
    simpl in Hfuel. destruct fuel as [|fuel]; [lia|].
    cbn [String.append]. rewrite star_loop_S, run_Class, Hc.
    cbn [String.length].
    rewrite (proj2 (Nat.ltb_lt _ _)) by lia.
    rewrite (IH fuel rest caps a); auto. lia.
Qed.

(** [*] cannot leave a set of positions that is closed under reading a
    character of the class; if the continuation fails on all of them, so
    does the loop. *)
Lemma star_class_blocked (Q : string -> Prop) :
  (forall c s, Q (String c s) -> p c = true -> Q s) ->
  (forall s caps, Q s -> k s caps = None) ->
  forall (fuel : nat) (s : string) (caps : captures),
    Q s -> star_loop (run len0 (Class p)) k fuel s caps = None.
Proof.
  intros Hstep Hk. induction fuel as [|fuel IH]; intros s caps HQ.
  - simpl. auto.
  - rewrite star_loop_S, run_Class. destruct s as [|c s]; [auto|].
    destruct (p c) eqn:E; [|auto].
    destruct (String.length s <? String.length (String c s))%nat; [|auto].
    rewrite IH; eauto.
Qed.

End ClassRuns.

(* ------------------------------------------------------------------ *)
(** * The runner subcommand *)

Section VersionSuffix.
Variable ver : string.
Hypothesis ver_chars : all_chars is_version_char ver = true.
Hypothesis ver_not_empty : ver <> "".

(** Before the last "@" the pattern does not match: the run of version
    characters cannot reach the end of the token. *)
Lemma version_suffix_not_inside (len0 : nat) (c : ascii) (w : string) :
  run len0 re_version_suffix (String c w ++ "@" ++ ver) []
      (fun s1 c1 => Some (s1, c1)) = None.
Proof.
  unfold re_version_suffix. cbn [Lit String.append].
  rewrite !run_Seq, run_Class.
  destruct (Ascii.eqb "@" c); [|reflexivity].
  rewrite run_Eps, run_Seq, run_Plus, run_Class.
  destruct w as [|d w]; cbn [String.append].
  - reflexivity.
  - destruct (is_version_char d) eqn:D; [|reflexivity].
    apply (star_class_blocked len0 is_version_char _
             (fun s => exists w', s = w' ++ "@" ++ ver)).
    + intros x s [w' E] Hx. destruct w' as [|y w']; simpl in E.
      * injection E as -> _. discriminate Hx.
      * injection E as _ ->. exists w'. reflexivity.
    + intros s caps [w' ->]. destruct w'; reflexivity.
    + exists w. reflexivity.
Qed.

Lemma version_suffix_at_end (len0 : nat) :
  run len0 re_version_suffix ("@" ++ ver) []
      (fun s1 c1 => Some (s1, c1)) = Some ("", []).
Proof.
  unfold re_version_suffix. cbn [Lit String.append].
  rewrite !run_Seq, run_Class. cbn [Ascii.eqb Bool.eqb].
  rewrite run_Eps, run_Seq, run_Plus, run_Class.
  destruct ver as [|d v] eqn:E; [contradiction|].
  simpl in ver_chars. apply andb_true_iff in ver_chars.
  destruct ver_chars as [Hd Hv]. rewrite Hd.
  rewrite <- (append_empty_r v).
  apply star_class_greedy; auto.
Qed.

Lemma version_suffix_found (len0 : nat) (name : string) :
  forall i : nat,
    exec_from len0 re_version_suffix i (name ++ "@" ++ ver)
    = Some (MatchResult (i + String.length name) "" []).
Proof.
  induction name as [|c name IH]; intros i; rewrite exec_from_unfold.
  - rewrite version_suffix_at_end.
    cbn [String.length]. rewrite Nat.add_0_r. reflexivity.
  - rewrite version_suffix_not_inside.
    cbn [String.append]. rewrite IH. cbn [String.length].
    rewrite Nat.add_succ_r. reflexivity.
Qed.

(** The replacement removes "@" and the version, and nothing else. *)
Lemma version_suffix_removed (name : string) :
  replace_empty re_version_suffix (name ++ "@" ++ ver) = name.
Proof.
  unfold replace_empty, exec. rewrite version_suffix_found.
  cbn [index after Nat.add]. unfold JsString.slice0.
  rewrite substring_append. apply append_empty_r.
Qed.

End VersionSuffix.

Lemma run_Opt (len0 : nat) (r : regex) (s : string) (caps : captures)
      (k : cont) :
  run len0 (Opt r) s caps k
  = match run len0 r s caps
            (fun s1 c1 =>
               if (String.length s1 <? String.length s)%nat
               then k s1 c1 else None) with
    | Some a => Some a
    | None => k s caps
    end.
Proof. reflexivity. Qed.

Lemma run_Group (len0 : nat) (n : nat) (r : regex) (s : string)
      (caps : captures) (k : cont) :
  run len0 (Group n r) s caps k
  = run len0 r s caps (fun s1 c1 => k s1 ((n, consumed s s1) :: c1)).
Proof. reflexivity. Qed.

(** The optional "--" and blanks do not match at a token whose third
    character is not a blank. *)
Lemma dashes_not_matched (len0 : nat) (c1 c2 c3 : ascii) (s : string)
      (caps : captures) (k : cont) :
  is_space c3 = false ->
  run len0 (Seq (Lit "--") (Plus (Class is_space)))
      (String c1 (String c2 (String c3 s))) caps k = None.
Proof.
  intros H3. cbn [Lit]. rewrite !run_Seq, run_Class.
  destruct (Ascii.eqb "-" c1); [|reflexivity].
  rewrite run_Seq, run_Class.
  destruct (Ascii.eqb "-" c2); [|reflexivity].
  rewrite run_Eps, run_Plus, run_Class, H3. reflexivity.
Qed.

(** The runner pattern matches at the start of a base command made of the
    runner, a space, a token of at least three package characters and
    something that ends the token; its group is the token. *)
Lemma exec_runner (runner tok rest : string) :
  all_chars is_pkg_char tok = true ->
  (3 <= String.length tok)%nat ->
  stops is_pkg_char rest = true ->
  exec (re_runner runner) (runner ++ " " ++ tok ++ rest)
  = Some (MatchResult 0 rest [(1%nat, tok)]).
Proof.
  intros Hall Hlen Hstop.
  destruct tok as [|c1 [|c2 [|c3 t]]]; simpl in Hlen; try lia.
  assert (is_pkg_char c1 = true /\ is_pkg_char c3 = true
          /\ all_chars is_pkg_char (String c2 (String c3 t)) = true)
    as [H1 [H3 Htail]].
  { simpl in Hall. repeat (apply andb_true_iff in Hall; destruct Hall as [? Hall]).
    simpl. repeat split; try assumption.
    repeat (apply andb_true_iff; split); assumption. }
  unfold exec. rewrite exec_from_unfold. unfold re_runner.
  rewrite run_Seq, run_Lit. cbv beta.
  rewrite run_Seq, run_Plus, run_Class. cbn [String.append].
  change (is_space " ") with true. cbv iota.
  rewrite star_class_stop
    by (simpl; rewrite (pkg_char_not_space c1 H1); reflexivity).
  rewrite run_Seq, run_Opt.
  rewrite dashes_not_matched by (apply pkg_char_not_space; exact H3).
  rewrite run_Group, run_Plus, run_Class, H1.
  rewrite (star_class_greedy _ is_pkg_char _ (String c2 (String c3 t))
             (String.length (String c2 (String c3 t) ++ rest)) rest
             [] (rest, [(1%nat, String c1 (String c2 (String c3 t)))]));
    auto.
  change (String c1 (String c2 (String c3 (t ++ rest))))
    with (String c1 (String c2 (String c3 t)) ++ rest).
  rewrite consumed_append. reflexivity.
Qed.

Lemma classifyRunner_cons (runner : string) (rest : list string)
      (base : string) :
  classifyRunner (runner :: rest) base
  = if startsWith base (runner ++ " ") then
      match extractRunnerCommand base runner with
      | Some sub => if truthy sub then Some (runner ++ " " ++ sub)
                    else Some runner
      | None => Some runner
      end
    else classifyRunner rest base.
Proof. reflexivity. Qed.

Lemma startsWith_split (s pre : string) :
  startsWith s pre = true -> exists x, s = pre ++ x.
Proof.
  unfold startsWith. revert s.
  induction pre as [|c pre IH]; intros s H.
  - exists s. reflexivity.
  - destruct s as [|d s]; simpl in H; [discriminate|].
    destruct (ascii_dec c d) as [->|]; [|discriminate].
    destruct (IH s H) as [x ->]. exists x. reflexivity.
Qed.

(** A base command that starts with a runner and a space is classified by
    that runner's branch of the loop. *)
Lemma classifyRunner_hit (base runner : string) :
  In runner RUNNERS ->
  startsWith base (runner ++ " ") = true ->
  classifyRunner RUNNERS base
  = match extractRunnerCommand base runner with
    | Some sub => if truthy sub then Some (runner ++ " " ++ sub)
                  else Some runner
    | None => Some runner
    end.
Proof.
  intros Hin Hhit. destruct (startsWith_split _ _ Hhit) as [x Hx].
  rewrite append_assoc in Hx. subst base.
  revert Hin Hhit. unfold RUNNERS. intros [<-|[<-|[<-|[]]]] Hhit.
  - rewrite classifyRunner_cons, Hhit. reflexivity.
  - rewrite classifyRunner_cons.
    change (startsWith ("bunx" ++ " " ++ x) ("npx" ++ " ")) with false.
    cbv iota. rewrite classifyRunner_cons, Hhit. reflexivity.
  - rewrite classifyRunner_cons.
    change (startsWith ("uvx" ++ " " ++ x) ("npx" ++ " ")) with false.
    cbv iota. rewrite classifyRunner_cons.
    change (startsWith ("uvx" ++ " " ++ x) ("bunx" ++ " ")) with false.
    cbv iota. rewrite classifyRunner_cons, Hhit. reflexivity.
Qed.

(** A base command made of a runner, a space, a name, "@", a version of
    digits and dots, and then the end or a blank: the runner's subcommand
    is the name. *)
Lemma extractRunnerCommand_versioned (runner name ver rest : string) :
  name <> "" -> all_chars is_pkg_char name = true ->
  ver <> "" -> all_chars is_version_char ver = true ->
  all_chars is_pkg_char ver = true ->
  stops is_pkg_char rest = true ->
  extractRunnerCommand (runner ++ " " ++ name ++ "@" ++ ver ++ rest) runner
  = Some name.
Proof.
  intros Hname Hnp Hver Hvv Hvp Hstop.
  replace (name ++ "@" ++ ver ++ rest) with ((name ++ "@" ++ ver) ++ rest)
    by (rewrite !append_assoc; reflexivity).
  unfold extractRunnerCommand. rewrite exec_runner.
  - cbn [groups capture Nat.eqb].
    rewrite version_suffix_removed; auto.
  - rewrite !all_chars_append, Hnp, Hvp. reflexivity.
  - rewrite !length_append.
    destruct name; [contradiction|]. destruct ver; [contradiction|].
    simpl. lia.
  - exact Hstop.
Qed.

(** When the base command starts with a runner and a space, and the
    token the runner pattern captures ends in "@" and a non-empty run of
    version characters (digits, dot, star and ^ ~ > = <), the runner's
    subcommand is the token without that suffix, and the category is the
    runner and the bare name (the runner alone when nothing is left of the
    token); "npx @scope/tool@1.2.3 build" is classified
    "npx @scope/tool". *)
Theorem runner_version_suffix_stripped :
  classifyCommand "npx @scope/tool@1.2.3 build" = "npx @scope/tool" /\
  forall (command runner name ver : string) (m : match_result),
    let base := extractBaseCommand command in
    In runner RUNNERS ->
    startsWith base (runner ++ " ") = true ->
    exec (re_runner runner) base = Some m ->
    capture 1 (groups m) = Some (name ++ "@" ++ ver) ->
    ver <> "" -> all_chars is_version_char ver = true ->
    extractRunnerCommand base runner = Some name
    /\ (name <> "" -> classifyCommand command = runner ++ " " ++ name)
    /\ (name = "" -> classifyCommand command = runner).
Proof.
  split; [vm_compute; reflexivity|].
  intros command runner name ver m base Hin Hstart Hexec Hcap Hver Hvv.
  assert (extractRunnerCommand base runner = Some name) as Hsub.
  { unfold extractRunnerCommand. rewrite Hexec, Hcap.
    rewrite version_suffix_removed; auto. }
  split; [exact Hsub|].
  unfold classifyCommand. fold base.
  rewrite (classifyRunner_hit base runner Hin Hstart), Hsub.
  split; intros Hname.
  - destruct name; [contradiction|]. reflexivity.
  - subst name. reflexivity.
Qed.

Lemma runner_version_suffix_stripped_witness :
  extractRunnerCommand (extractBaseCommand "bunx -- @scope/tool@1.2.3 build")
                       "bunx" = Some "@scope/tool"
  /\ ("@scope/tool" <> "" ->
      classifyCommand "bunx -- @scope/tool@1.2.3 build"
      = "bunx" ++ " " ++ "@scope/tool")
  /\ ("@scope/tool" = "" ->
      classifyCommand "bunx -- @scope/tool@1.2.3 build" = "bunx").
Proof.
  apply (proj2 runner_version_suffix_stripped
           "bunx -- @scope/tool@1.2.3 build" "bunx" "@scope/tool" "1.2.3"
           (MatchResult 0 " build" [(1%nat, "@scope/tool@1.2.3")])).
  - simpl; tauto.
  - vm_compute; reflexivity.
  - vm_compute; reflexivity.
  - vm_compute; reflexivity.
  - discriminate.
  - vm_compute; reflexivity.
Defined.

(* ------------------------------------------------------------------ *)
(** * The base command: whitespace and provenance *)

Lemma trimEnd_idempotent (s : string) : trimEnd (trimEnd s) = trimEnd s.
Proof.
  induction s as [|c s IH]; [reflexivity|].
  cbn [trimEnd]. destruct (trimEnd s) as [|d t] eqn:E.
  - destruct (is_space c) eqn:C; [reflexivity|].
    cbn [trimEnd]. rewrite C. reflexivity.
  - cbn [trimEnd]. cbn [trimEnd] in IH. rewrite IH. reflexivity.
Qed.

(** What [trimStart] returns starts with no blank. *)
Lemma trimStart_head (s : string) : stops is_space (trimStart s) = false
                                    -> False.
Proof.
  induction s as [|c s IH]; simpl; [discriminate|].
  destruct (is_space c) eqn:C; [exact IH|].
  simpl. rewrite C. discriminate.
Qed.

Lemma trimStart_fixed (s : string) :
  stops is_space s = true -> trimStart s = s.
Proof.
  destruct s as [|c s]; simpl; [reflexivity|].
  intros H. apply negb_true_iff in H. rewrite H. reflexivity.
Qed.

(** [trimEnd] keeps the first character of what it returns. *)
Lemma trimEnd_head (s : string) :
  stops is_space s = true -> stops is_space (trimEnd s) = true.
Proof.
  destruct s as [|c s]; [reflexivity|].
  cbn [trimEnd stops]. intros H.
  destruct (trimEnd s); [|exact H].
  apply negb_true_iff in H. rewrite H. simpl. rewrite H. reflexivity.
Qed.

Lemma trim_trimmed (s : string) :
  trimStart (trim s) = trim s /\ trimEnd (trim s) = trim s.
Proof.
  unfold trim. split.
  - apply trimStart_fixed, trimEnd_head.
    destruct (stops is_space (trimStart s)) eqn:E; [reflexivity|].
    destruct (trimStart_head s E).
  - apply trimEnd_idempotent.
Qed.

Lemma trim_idempotent (s : string) : trim (trim s) = trim s.
Proof.
  destruct (trim_trimmed s) as [H1 H2].
  unfold trim at 1. rewrite H1. exact H2.
Qed.

(** What [extractBaseCommand] returns neither starts nor ends with a
    blank: trimming it again changes nothing. *)
Theorem extractBaseCommand_trimmed :
  forall command : string,
    trimStart (extractBaseCommand command) = extractBaseCommand command
    /\ trimEnd (extractBaseCommand command) = extractBaseCommand command
    /\ stops is_space (extractBaseCommand command) = true.
Proof.
  intros command. unfold extractBaseCommand. cbv zeta.
  set (cmd := replace_empty re_env_prefix _).
  destruct (trim_trimmed cmd) as [H1 H2].
  split; [exact H1|]. split; [exact H2|].
  unfold trim. apply trimEnd_head.
  destruct (stops is_space (trimStart cmd)) eqn:E; [reflexivity|].
  destruct (trimStart_head cmd E).
Qed.

Lemma trimStart_blanks (pre s : string) :
  all_chars is_space pre = true -> trimStart (pre ++ s) = trimStart s.
Proof.
  induction pre as [|c pre IH]; simpl; [reflexivity|].
  intros H. apply andb_true_iff in H. destruct H as [C H].
  rewrite C. auto.
Qed.

Lemma trimEnd_all_blanks (post : string) :
  all_chars is_space post = true -> trimEnd post = "".
Proof.
  induction post as [|c post IH]; simpl; [reflexivity|].
  intros H. apply andb_true_iff in H. destruct H as [C H].
  rewrite (IH H), C. reflexivity.
Qed.

Lemma trimEnd_blanks (s post : string) :
  all_chars is_space post = true -> trimEnd (s ++ post) = trimEnd s.
Proof.
  intros H. induction s as [|c s IH].
  - simpl. apply trimEnd_all_blanks. exact H.
  - cbn [String.append trimEnd]. rewrite IH. reflexivity.
Qed.

Lemma trim_blanks (pre s post : string) :
  all_chars is_space pre = true -> all_chars is_space post = true ->
  trim (pre ++ s ++ post) = trim s.
Proof.
  intros Hpre Hpost. unfold trim. rewrite trimStart_blanks by exact Hpre.
  induction s as [|c s IH].
  - simpl. rewrite <- (append_empty_r post) at 1.
    rewrite trimStart_blanks by exact Hpost. reflexivity.
  - cbn [String.append trimStart]. destruct (is_space c); [exact IH|].
    change (String c (s ++ post)) with (String c s ++ post).
    apply trimEnd_blanks. exact Hpost.
Qed.

(** Blanks around a command change neither its base command nor its
    category. *)
Theorem classifyCommand_ignores_outer_blanks :
  forall command pre post : string,
    all_chars is_space pre = true -> all_chars is_space post = true ->
    extractBaseCommand (pre ++ command ++ post) = extractBaseCommand command
    /\ classifyCommand (pre ++ command ++ post) = classifyCommand command.
Proof.
  intros command pre post Hpre Hpost.
  assert (extractBaseCommand (pre ++ command ++ post)
          = extractBaseCommand command) as H.
  { unfold extractBaseCommand. rewrite trim_blanks by assumption.
    reflexivity. }
  split; [exact H|]. unfold classifyCommand. rewrite H. reflexivity.
Qed.

Lemma classifyCommand_ignores_outer_blanks_witness :
  classifyCommand ("  " ++ "git status" ++ " ") = classifyCommand "git status".
Proof.
  apply (classifyCommand_ignores_outer_blanks "git status" "  " " ");
    reflexivity.
Defined.

Section Forward.
Variable len0 : nat.

Lemma star_loop_reads_on (body : matcher) (k : cont) :
  reads_on body ->
  forall (fuel : nat) (s : string) (caps : captures)
         (a : string * captures),
    star_loop body k fuel s caps = Some a ->
    exists pre s1 c1, s = pre ++ s1 /\ k s1 c1 = Some a.
Proof.
  intros Hbody. induction fuel as [|fuel IH]; intros s caps a H.
  - exists "", s, caps. auto.
  - rewrite star_loop_S in H.
    destruct (body s caps _) as [a'|] eqn:E.
    + injection H as ->.
      destruct (Hbody _ _ _ _ E) as [pre [s1 [c1 [-> H1]]]].
      destruct (String.length s1 <? String.length (pre ++ s1))%nat;
        [|discriminate].
      destruct (IH _ _ _ H1) as [pre' [s2 [c2 [-> H2]]]].
      exists (pre ++ pre'), s2, c2. rewrite append_assoc. auto.
    + exists "", s, caps. auto.
Qed.

Lemma run_reads_on (r : regex) : reads_on (run len0 r).
Proof.
  induction r as [p| |r1 IH1 r2 IH2|r1 IH1|r1 IH1|n r1 IH1| |];
    intros s caps k a H.
  - rewrite run_Class in H. destruct s as [|c s]; [discriminate|].
    destruct (p c); [|discriminate].
    exists (String c ""), s, caps. auto.
  - exists "", s, caps. auto.
  - rewrite run_Seq in H.
    destruct (IH1 _ _ _ _ H) as [pre [s1 [c1 [-> H1]]]].
    destruct (IH2 _ _ _ _ H1) as [pre' [s2 [c2 [-> H2]]]].
    exists (pre ++ pre'), s2, c2. rewrite append_assoc. auto.
  - change (run len0 (Star r1) s caps k)
      with (star_loop (run len0 r1) k (String.length s) s caps) in H.
    apply (star_loop_reads_on _ _ IH1 _ _ _ _ H).
  - rewrite run_Opt in H.
    destruct (run len0 r1 s caps _) as [a'|] eqn:E.
    + injection H as ->.
      destruct (IH1 _ _ _ _ E) as [pre [s1 [c1 [-> H1]]]].
      destruct (String.length s1 <? String.length (pre ++ s1))%nat;
        [|discriminate].
      exists pre, s1, c1. auto.
    + exists "", s, caps. auto.
  - rewrite run_Group in H.
    destruct (IH1 _ _ _ _ H) as [pre [s1 [c1 [-> H1]]]].
    exists pre, s1, ((n, consumed (pre ++ s1) s1) :: c1). auto.
  - cbn [run] in H.
    destruct (String.length s =? len0)%nat; [|discriminate].
    exists "", s, caps. auto.
  - cbn [run] in H. destruct s; [|discriminate].
    exists "", "", caps. auto.
Qed.

(** A pattern that starts with [^] matches at the start or nowhere. *)
Lemma exec_from_anchored (r : regex) (s : string) :
  forall i : nat,
    (String.length s < len0)%nat ->
    exec_from len0 (Seq Bol r) i s = None.
Proof.
  induction s as [|c s IH]; intros i Hlen; rewrite exec_from_unfold;
    rewrite run_Seq; cbn [run];
    rewrite (proj2 (Nat.eqb_neq _ _)) by lia.
  - reflexivity.
  - apply IH. simpl in Hlen. lia.
Qed.

End Forward.

(** Deleting the first match of a pattern that starts with [^] leaves a
    suffix of the string. *)
Lemma replace_anchored_suffix (r : regex) (s : string) :
  exists pre, s = pre ++ replace_empty (Seq Bol r) s.
Proof.
  unfold replace_empty, exec. rewrite exec_from_unfold.
  destruct (run (String.length s) (Seq Bol r) s [] _) as [[s1 c1]|] eqn:E.
  - destruct (run_reads_on _ _ _ _ _ _ E) as [pre [s2 [c2 [Hs H2]]]].
    injection H2 as -> ->. exists pre.
    cbn [index after]. unfold JsString.slice0.
    destruct s; exact Hs.
  - destruct s as [|c s].
    + exists "". reflexivity.
    + rewrite exec_from_anchored by (simpl; lia). exists "". reflexivity.
Qed.

Lemma trimStart_suffix (s : string) : exists pre, s = pre ++ trimStart s.
Proof.
  induction s as [|c s [pre IH]]; simpl.
  - exists "". reflexivity.
  - destruct (is_space c).
    + exists (String c pre). simpl. congruence.
    + exists "". reflexivity.
Qed.

Lemma trimEnd_prefix (s : string) : exists post, s = trimEnd s ++ post.
Proof.
  induction s as [|c s [post IH]]; cbn [trimEnd].
  - exists "". reflexivity.
  - destruct (trimEnd s) as [|d t].
    + destruct (is_space c).
      * exists (String c s). reflexivity.
      * exists s. reflexivity.
    + exists post. simpl. simpl in IH. congruence.
Qed.

Lemma includes_unfold (s p : string) :
  includes s p
  = String.prefix p s
    || match s with
       | EmptyString => false
       | String _ s' => includes s' p
       end.
Proof. destruct s; reflexivity. Qed.

Lemma includes_part (pre x post : string) :
  includes (pre ++ x ++ post) x = true.
Proof.
  induction pre as [|c pre IH].
  - cbn [String.append].
    rewrite includes_unfold.
    rewrite (startsWith_append x post : String.prefix x (x ++ post) = true).
    reflexivity.
  - cbn [String.append includes]. rewrite IH. apply orb_true_r.
Qed.

(** The base command is a piece of the command: [extractBaseCommand] only
    removes text from the two ends, so the command includes its base
    command. *)
Theorem extractBaseCommand_part_of_command :
  forall command : string,
    (exists pre post, command = pre ++ extractBaseCommand command ++ post)
    /\ includes command (extractBaseCommand command) = true.
Proof.
  intros command.
  assert (exists pre post,
             command = pre ++ extractBaseCommand command ++ post) as H.
  { unfold extractBaseCommand. cbv zeta.
    destruct (trimStart_suffix command) as [p1 H1].
    destruct (trimEnd_prefix (trimStart command)) as [q1 H2].
    fold (trim command) in H2.
    unfold re_cd_prefix, re_env_prefix.
    set (cd := Plus (Group 1 (Seq (Lit "cd") _))).
    set (env := Plus (Group 1 (Seq (Plus (Class is_word)) _))).
    destruct (replace_anchored_suffix cd (trim command)) as [p2 H3].
    set (c1 := replace_empty (Seq Bol cd) (trim command)) in *.
    destruct (replace_anchored_suffix env c1) as [p3 H4].
    set (c2 := replace_empty (Seq Bol env) c1) in *.
    destruct (trimStart_suffix c2) as [p4 H5].
    destruct (trimEnd_prefix (trimStart c2)) as [q2 H6].
    fold (trim c2) in H6.
    exists (p1 ++ p2 ++ p3 ++ p4), (q2 ++ q1).
    rewrite H1 at 1. rewrite H2 at 1. rewrite H3 at 1. rewrite H4 at 1.
    rewrite H5 at 1. rewrite H6 at 1.
    rewrite !append_assoc. reflexivity. }
  split; [exact H|].
  destruct H as [pre [post H]]. rewrite H at 1. apply includes_part.
Qed.

(* ------------------------------------------------------------------ *)
(** * The classifier: first match, and the runner categories *)

Lemma COMMAND_GROUPS_names_distinct : NoDup (map fst COMMAND_GROUPS).
Proof.
  unfold COMMAND_GROUPS. cbn [map fst].
  repeat (constructor; [cbn [In]; intuition discriminate|]).
  constructor.
Qed.

Lemma matchPatterns_none (base : string) (patterns : list string) :
  (forall p, In p patterns -> includes base p = false) ->
  matchPatterns patterns base = false.
Proof.
  induction patterns as [|q rest IH]; intros H; simpl; [reflexivity|].
  rewrite (H q) by (simpl; auto). simpl. apply IH.
  intros p Hp. apply H. simpl. auto.
Qed.

(** With distinct names, the entry that matches after entries that do
    not is the one that answers. *)
Lemma classifyStatic_first (base : string)
      (table : list (string * list string)) (name : string)
      (patterns : list string) :
  NoDup (map fst table) ->
  In (name, patterns) table ->
  matchPatterns patterns base = true ->
  (forall n ps p, In (n, ps) (entriesBefore name table) -> In p ps ->
                  includes base p = false) ->
  classifyStatic table base = Some name.
Proof.
  induction table as [|[n ps] rest IH]; intros Hnd Hin Hm Hbefore;
    [contradiction|].
  cbn [map fst] in Hnd. inversion Hnd as [|? ? Hnotin Hnd']; subst.
  cbn [classifyStatic]. cbn [entriesBefore fst] in Hbefore.
  destruct (String.eqb_spec n name) as [->|Hne].
  - destruct Hin as [E|Hin].
    + injection E as ->. rewrite Hm. reflexivity.
    + exfalso. apply Hnotin. change name with (fst (name, patterns)).
      apply in_map. exact Hin.
  - rewrite (matchPatterns_none base ps).
    + apply IH; auto.
      * destruct Hin as [E|Hin]; [congruence|exact Hin].
      * intros n' ps' p H1 H2. apply (Hbefore n' ps' p); simpl; auto.
    + intros p Hp. apply (Hbefore n ps p); simpl; auto.
Qed.

Lemma table_entry_unique (table : list (string * list string))
      (name : string) (ps ps' : list string) :
  NoDup (map fst table) -> In (name, ps) table -> In (name, ps') table ->
  ps = ps'.
Proof.
  induction table as [|[n q] rest IH]; intros Hnd H1 H2; [contradiction|].
  cbn [map fst] in Hnd. inversion Hnd as [|? ? Hnotin Hnd']; subst.
  destruct H1 as [E1|H1], H2 as [E2|H2].
  - congruence.
  - injection E1 as -> ->. exfalso. apply Hnotin.
    change name with (fst (name, ps')). apply in_map. exact H2.
  - injection E2 as -> ->. exfalso. apply Hnotin.
    change name with (fst (name, ps)). apply in_map. exact H1.
  - apply IH; assumption.
Qed.

(** When no runner starts the base command, a command has the category of
    a table entry exactly when the base command includes one of the
    entry's patterns and none of the patterns of the entries before it. *)
Theorem classifyCommand_first_match :
  forall (command name : string) (patterns : list string),
    let base := extractBaseCommand command in
    In (name, patterns) COMMAND_GROUPS ->
    (forall runner, In runner RUNNERS ->
                    startsWith base (runner ++ " ") = false) ->
    (classifyCommand command = name <->
     matchPatterns patterns base = true
     /\ forall n ps p,
          In (n, ps) (entriesBefore name COMMAND_GROUPS) -> In p ps ->
          includes base p = false).
Proof.
  intros command name patterns base Hin HR.
  unfold classifyCommand. fold base.
  rewrite (proj2 (classifyRunner_none base RUNNERS) HR).
  split.
  - intros H.
    destruct (classifyStatic COMMAND_GROUPS base) as [g|] eqn:ES.
    + subst g. split.
      * destruct (classifyStatic_some base _ _ ES) as [ps [p [H1 [H2 H3]]]].
        rewrite (table_entry_unique _ _ _ _ COMMAND_GROUPS_names_distinct
                   Hin H1).
        apply (matchPatterns_In base ps p H2 H3).
      * apply (classifyStatic_before base _ _ ES).
    + exfalso. subst name. unfold COMMAND_GROUPS in Hin. cbn [In] in Hin.
      intuition discriminate.
  - intros [Hm Hbefore].
    rewrite (classifyStatic_first base COMMAND_GROUPS name patterns
               COMMAND_GROUPS_names_distinct Hin Hm Hbefore).
    reflexivity.
Qed.

Lemma classifyCommand_first_match_witness :
  classifyCommand "cat notes | grep -c TODO" = "grep/rg".
Proof.
  refine (proj2 (classifyCommand_first_match "cat notes | grep -c TODO"
                   "grep/rg" ["grep "; "rg "] _ _) _).
  - unfold COMMAND_GROUPS. cbn [In]. tauto.
  - intros runner Hin. cbn [RUNNERS In] in Hin.
    destruct Hin as [<-|[<-|[<-|[]]]]; vm_compute; reflexivity.
  - split; [vm_compute; reflexivity|].
    intros n ps p Hin Hp. cbn in Hin.
    repeat (destruct Hin as [Hin|Hin];
            [injection Hin as <- <-; cbn [In] in Hp;
             repeat (destruct Hp as [<-|Hp]; [vm_compute; reflexivity|]);
             contradiction|]).
    contradiction.
Defined.

(** A runner category is no name of the table and is not "other": the
    dynamic groups never merge with a static one. *)
Theorem runner_category_is_apart :
  forall command runner : string,
    In runner RUNNERS ->
    startsWith (extractBaseCommand command) (runner ++ " ") = true ->
    startsWith (classifyCommand command) runner = true
    /\ ~ In (classifyCommand command) (map fst COMMAND_GROUPS)
    /\ classifyCommand command <> "other".
Proof.
  intros command runner Hin Hstart. unfold classifyCommand.
  rewrite (classifyRunner_hit _ runner Hin Hstart).
  assert (forall g,
            g = runner \/ (exists sub, g = runner ++ " " ++ sub) ->
            startsWith g runner = true
            /\ ~ In g (map fst COMMAND_GROUPS) /\ g <> "other") as H.
  { intros g Hg. split.
    - destruct Hg as [->|[sub ->]].
      + rewrite <- (append_empty_r runner) at 1. apply startsWith_append.
      + apply startsWith_append.
    - unfold COMMAND_GROUPS. cbn [map fst In RUNNERS] in *.
      destruct Hin as [<-|[<-|[<-|[]]]];
        (destruct Hg as [->|[sub ->]]; cbn [String.append];
         (split; [intuition discriminate|discriminate])). }
  destruct (extractRunnerCommand (extractBaseCommand command) runner)
    as [sub|]; [destruct (truthy sub)|]; apply H; eauto.
Qed.

Lemma runner_category_is_apart_witness :
  startsWith (classifyCommand "npx jest --ci") "npx" = true
  /\ ~ In (classifyCommand "npx jest --ci") (map fst COMMAND_GROUPS)
  /\ classifyCommand "npx jest --ci" <> "other".
Proof.
  apply (runner_category_is_apart "npx jest --ci" "npx").
  - simpl; tauto.
  - vm_compute; reflexivity.
Defined.

(* ------------------------------------------------------------------ *)
(** * The estimate across records *)

(** More characters never lower the estimate, and the estimates of two
    outputs add up to the estimate of their sum or to one more. *)
Theorem estimateTokens_monotone_subadditive :
  forall a b : Z,
    0 <= a -> 0 <= b ->
    (a <= b -> estimateTokens a <= estimateTokens b)
    /\ estimateTokens (a + b) <= estimateTokens a + estimateTokens b
    /\ estimateTokens a + estimateTokens b <= estimateTokens (a + b) + 1.
Proof.
  intros a b Ha Hb. rewrite !estimateTokens_div.
  split; [intros Hab|split]; Z.to_euclidean_division_equations; lia.
Qed.

Lemma estimateTokens_monotone_subadditive_witness :
  estimateTokens (5 + 6) <= estimateTokens 5 + estimateTokens 6
  /\ estimateTokens 5 + estimateTokens 6 <= estimateTokens (5 + 6) + 1.
Proof.
  apply (proj2 (estimateTokens_monotone_subadditive 5 6 ltac:(lia) ltac:(lia))).
Defined.

Lemma wellFormed_bounds (r : BashRecord) :
  wellFormed r ->
  outputChars r <= 4 * estimatedTokens r <= outputChars r + 3.
Proof.
  intros [H0 ->]. rewrite estimateTokens_div.
  Z.to_euclidean_division_equations; lia.
Qed.

Lemma total_wellFormed_bounds (rs : list BashRecord) :
  Forall wellFormed rs ->
  total outputChars rs <= 4 * total estimatedTokens rs
  /\ 4 * total estimatedTokens rs
     <= total outputChars rs + 3 * Z.of_nat (List.length rs).
Proof.
  induction 1 as [|r rs Hr Hrs IH]; [simpl; lia|].
  pose proof (wellFormed_bounds r Hr).
  unfold total in *. cbn [fold_right List.length]. lia.
Qed.

(** In the grouped summary of well-formed records a category's tokens
    are at least a quarter of its characters, and exceed it by less than
    one token per call. *)
Theorem summary_tokens_track_chars :
  forall (showCommands : bool) (rs : list BashRecord) (l : SummaryLine),
    Forall wellFormed rs ->
    In l (summaryLines showCommands rs) ->
    totalChars (data l) <= 4 * totalTokens (data l)
    /\ 4 * totalTokens (data l) <= totalChars (data l) + 3 * count (data l)
    /\ 1 <= count (data l).
Proof.
  intros showCommands rs l Hwf Hin.
  rewrite (summaryLines_figure showCommands rs totalTokens estimatedTokens
             l tally_tokens Hin).
  rewrite (summaryLines_figure showCommands rs totalChars outputChars
             l tally_chars Hin).
  rewrite (summaryLines_figure showCommands rs count (fun _ => 1)
             l tally_count Hin), total_ones.
  assert (Forall wellFormed (recordsOf (group l) rs)) as Hsub.
  { unfold recordsOf. rewrite Forall_forall in *. intros r Hr.
    apply filter_In in Hr. apply Hwf. tauto. }
  destruct (total_wellFormed_bounds _ Hsub) as [H1 H2].
  split; [exact H1|]. split; [exact H2|].
  (* the category of a line has a record *)
  assert (In (group l) (map group (summaryLines showCommands rs))) as Hg
      by (apply in_map; exact Hin).
  pose proof (summaryLines_Permutation showCommands rs) as P.
  apply (Permutation_map fst) in P. rewrite map_map in P. cbn [fst] in P.
  apply (Permutation_in _ P) in Hg.
  destruct (groupRecords_encounter_order showCommands rs) as [Hkeys _].
  assert (JsMap.get (group l) (groupRecords showCommands rs) <> None) as Hget.
  { intros E. apply get_None_keys in E. contradiction. }
  apply Hkeys in Hget.
  assert (recordsOf (group l) rs <> []) as Hne.
  { clear - Hget. induction rs as [|r rs IH]; simpl in *; [lia|].
    unfold recordsOf. cbn [filter].
    destruct (String.eqb (classifyCommand (command r)) (group l));
      [discriminate|].
    apply IH. lia. }
  destruct (recordsOf (group l) rs); [contradiction|].
  cbn [List.length]. lia.
Qed.

Lemma summary_tokens_track_chars_witness :
  totalChars (Build_GroupData 1 500 2000 [])
  <= 4 * totalTokens (Build_GroupData 1 500 2000 []).
Proof.
  apply (summary_tokens_track_chars false scenario
           {| group := "pytest"; data := Build_GroupData 1 500 2000 [];
              pct := Number.Text "97.7" |}).
  - repeat constructor; vm_compute; congruence.
  - vm_compute. tauto.
Defined.

(* ------------------------------------------------------------------ *)
(** * The share of a zero total *)

Lemma total_zero_parts (A : Type) (f : A -> Z) (l : list A) :
  Forall (fun x => 0 <= f x) l -> total f l = 0 ->
  forall p : A -> bool, total f (filter p l) = 0.
Proof.
  induction 1 as [|x l Hx Hl IH]; intros Hsum p; [reflexivity|].
  assert (0 <= total f l) as Hpos.
  { clear - Hl. induction Hl; simpl; lia. }
  simpl in Hsum. cbn [filter].
  assert (f x = 0 /\ total f l = 0) as [Hx0 Hl0] by lia.
  destruct (p x); simpl; rewrite (IH Hl0 p); lia.
Qed.

Lemma summaryLines_pct (showCommands : bool) (rs : list BashRecord)
      (l : SummaryLine) :
  In l (summaryLines showCommands rs) ->
  pct l = percent (totalTokens (data l)) (sumTokens rs).
Proof.
  unfold summaryLines. intros H. apply in_map_iff in H.
  destruct H as [e [<- _]]. reflexivity.
Qed.

(** When the estimates are not negative and add up to zero, every line of
    the grouped summary carries the share "NaN": the quotient 0/0 is not
    guarded. *)
Theorem zero_total_shares_are_NaN :
  forall (showCommands : bool) (rs : list BashRecord) (l : SummaryLine),
    Forall (fun r => 0 <= estimatedTokens r) rs ->
    sumTokens rs = 0 ->
    In l (summaryLines showCommands rs) ->
    pct l = Number.Text "NaN".
Proof.
  intros showCommands rs l Hpos Hsum Hin.
  rewrite (summaryLines_pct showCommands rs l Hin), Hsum.
  rewrite (summaryLines_figure showCommands rs totalTokens estimatedTokens
             l tally_tokens Hin).
  rewrite sumTokens_total in Hsum. unfold recordsOf.
  rewrite (total_zero_parts _ _ _ Hpos Hsum).
  vm_compute. reflexivity.
Qed.

Lemma zero_total_shares_are_NaN_witness :
  pct {| group := "other"; data := Build_GroupData 1 0 0 [];
         pct := Number.Text "NaN" |} = Number.Text "NaN".
Proof.
  apply (zero_total_shares_are_NaN false silent).
  - repeat constructor; vm_compute; congruence.
  - vm_compute; reflexivity.
  - vm_compute. tauto.
Defined.

(* ------------------------------------------------------------------ *)
(** * The ten largest *)

Section SortByKey.
Variable A : Type.
Variable key : A -> Z.

Let cmp (a b : A) : Z := key b - key a.

Lemma insert_descending (x : A) (l : list A) :
  StronglySorted (fun a b => key b <= key a) l ->
  StronglySorted (fun a b => key b <= key a) (JsArray.insert cmp x l).
Proof.
  induction 1 as [|y l HS IH HF]; simpl.
  - constructor; constructor.
  - unfold cmp at 1. destruct (Z.ltb_spec 0 (key y - key x)) as [L|L].
    + constructor; [exact IH|].
      apply (Permutation_Forall
               (Permutation_sym (insert_Permutation A cmp x l))).
      constructor; [lia|exact HF].
    + constructor; [constructor; assumption|].
      constructor; [lia|].
      rewrite Forall_forall in *. intros z Hz. specialize (HF z Hz). lia.
Qed.

Lemma sort_descending (l : list A) :
  StronglySorted (fun a b => key b <= key a) (JsArray.sort cmp l).
Proof.
  induction l as [|x l IH]; simpl; [constructor|].
  apply insert_descending. exact IH.
Qed.

(** The sort keeps the elements of one key in their order. *)
Lemma insert_stable (t : Z) (x : A) (l : list A) :
  filter (fun y => key y =? t)%Z (JsArray.insert cmp x l)
  = filter (fun y => key y =? t)%Z (x :: l).
Proof.
  induction l as [|y l IH]; [reflexivity|].
  cbn [JsArray.insert]. unfold cmp at 1.
  destruct (Z.ltb_spec 0 (key y - key x)) as [L|L]; [|reflexivity].
  cbn [filter] in *. rewrite IH.
  destruct (Z.eqb_spec (key x) t) as [Ex|Ex]; [|reflexivity].
  destruct (Z.eqb_spec (key y) t) as [Ey|Ey]; [lia|reflexivity].
Qed.

Lemma sort_stable (t : Z) (l : list A) :
  filter (fun y => key y =? t)%Z (JsArray.sort cmp l)
  = filter (fun y => key y =? t)%Z l.
Proof.
  induction l as [|x l IH]; [reflexivity|].
  cbn [JsArray.sort]. rewrite insert_stable. cbn [filter].
  rewrite IH. reflexivity.
Qed.

Lemma filter_firstn (p : A -> bool) (n : nat) (l : list A) :
  filter p (firstn n l)
  = firstn (List.length (filter p (firstn n l))) (filter p l).
Proof.
  revert n. induction l as [|x l IH]; intros n.
  - rewrite firstn_nil. reflexivity.
  - destruct n as [|n]; [reflexivity|].
    cbn [firstn filter]. destruct (p x).
    + cbn [List.length firstn]. rewrite <- IH. reflexivity.
    + apply IH.
Qed.

End SortByKey.

Lemma pirs_top (args : option string) (rs : list BashRecord) :
  rs <> [] -> modeOf args = "top" ->
  pirs args rs
  = TopCommands
      (map (fun r => (r, ellipsis 70 (command r)))
           (firstn 10
              (JsArray.sort
                 (fun a b => estimatedTokens b - estimatedTokens a) rs))).
Proof.
  intros Hne Hmode. unfold pirs. rewrite Hmode.
  destruct rs; [contradiction|]. reflexivity.
Qed.

(** The mode "top" shows the ten records of largest estimate, largest
    first, or all the records when there are fewer than ten. *)
Theorem top_shows_ten_largest :
  forall (args : option string) (rs : list BashRecord),
    rs <> [] -> modeOf args = "top" ->
    exists sorted : list BashRecord,
      pirs args rs
      = TopCommands (map (fun r => (r, ellipsis 70 (command r)))
                         (firstn 10 sorted))
      /\ List.length (firstn 10 sorted) = Nat.min 10 (List.length rs)
      /\ Permutation sorted rs
      /\ StronglySorted
           (fun a b => estimatedTokens b <= estimatedTokens a) sorted.
Proof.
  intros args rs Hne Hmode.
  exists (JsArray.sort (fun a b => estimatedTokens b - estimatedTokens a) rs).
  split; [apply pirs_top; assumption|].
  pose proof (sort_Permutation BashRecord
                (fun a b => estimatedTokens b - estimatedTokens a) rs) as P.
  split; [|split; [exact P|]].
  - rewrite length_firstn, (Permutation_length P). reflexivity.
  - apply (sort_descending BashRecord estimatedTokens).
Qed.

Lemma top_shows_ten_largest_witness :
  exists sorted : list BashRecord,
    pirs (Some " top ") scenario
    = TopCommands (map (fun r => (r, ellipsis 70 (command r)))
                       (firstn 10 sorted))
    /\ List.length (firstn 10 sorted) = Nat.min 10 (List.length scenario)
    /\ Permutation sorted scenario
    /\ StronglySorted
         (fun a b => estimatedTokens b <= estimatedTokens a) sorted.
Proof.
  apply (top_shows_ten_largest (Some " top ") scenario).
  - discriminate.
  - vm_compute; reflexivity.
Defined.

(** In the mode "top", the records shown with one estimate are the first
    records of the sequence with that estimate, in their order of
    arrival. *)
Theorem top_ties_keep_arrival_order :
  forall (args : option string) (rs : list BashRecord)
         (shown : list (BashRecord * string)) (t : Z),
    pirs args rs = TopCommands shown ->
    let tied := filter (fun r => estimatedTokens r =? t)%Z (map fst shown) in
    tied = firstn (List.length tied)
                  (filter (fun r => estimatedTokens r =? t)%Z rs).
Proof.
  intros args rs shown t H tied. subst tied.
  assert (map fst shown
          = firstn 10 (JsArray.sort
                         (fun a b => estimatedTokens b - estimatedTokens a)
                         rs)) as E.
  { unfold pirs in H.
    destruct (List.length rs =? 0)%nat; [discriminate|].
    destruct (String.eqb (modeOf args) "all"); [discriminate|].
    destruct (String.eqb (modeOf args) "top"); [|discriminate].
    injection H as <-. unfold JsArray.slice0.
    rewrite map_map. cbn [fst]. apply map_id. }
  rewrite E.
  rewrite <- (sort_stable BashRecord estimatedTokens t rs).
  apply filter_firstn.
Qed.

Lemma top_ties_keep_arrival_order_witness :
  filter (fun r => estimatedTokens r =? 10)%Z
         [makeRecord 2 "pytest -v" 2000 false false;
          makeRecord 1 "git status" 40 false false;
          makeRecord 3 "echo hi" 8 false false]
  = firstn 1 (filter (fun r => estimatedTokens r =? 10)%Z scenario).
Proof.
  apply (top_ties_keep_arrival_order (Some "top") scenario
           (map (fun r => (r, command r))
                [makeRecord 2 "pytest -v" 2000 false false;
                 makeRecord 1 "git status" 40 false false;
                 makeRecord 3 "echo hi" 8 false false]) 10).
  vm_compute. reflexivity.
Defined.

(* ------------------------------------------------------------------ *)
(** * What is shown of a command *)

Lemma length_substring (n : nat) (s : string) :
  (n <= String.length s)%nat ->
  String.length (String.substring 0 n s) = n.
Proof.
  revert s. induction n as [|n IH]; intros s H.
  - destruct s; reflexivity.
  - destruct s as [|c s]; simpl in H; [lia|].
    simpl. rewrite IH; [reflexivity|lia].
Qed.

(** A command of at most [n] characters is shown whole; a longer one is
    cut to its first [n - 3] characters and three dots, [n] characters in
    all. *)
Lemma ellipsis_cut (n : nat) (c : string) :
  (3 <= n)%nat ->
  (String.length (ellipsis n c) <= n)%nat
  /\ ((String.length c <= n)%nat -> ellipsis n c = c)
  /\ ((n < String.length c)%nat ->
      ellipsis n c = String.substring 0 (n - 3) c ++ "..."
      /\ String.length (ellipsis n c) = n).
Proof.
  intros Hn. unfold ellipsis, JsString.slice0.
  destruct (Nat.ltb_spec n (String.length c)) as [L|L].
  - assert (String.length (String.substring 0 (n - 3) c ++ "...") = n) as E.
    { rewrite length_append, length_substring by lia. simpl. lia. }
    split; [lia|]. split; [lia|]. intros _. split; [reflexivity|exact E].
  - split; [exact L|]. split; [reflexivity|lia].
Qed.

Lemma firstn_snoc (A : Type) (n : nat) (l : list A) (x : A) :
  firstn n (l ++ [x])%list
  = if (List.length (firstn n l) <? n)%nat then (firstn n l ++ [x])%list
    else firstn n l.
Proof.
  revert n. induction l as [|y l IH]; intros n.
  - destruct n as [|n]; [reflexivity|]. simpl. rewrite firstn_nil.
    reflexivity.
  - destruct n as [|n]; [reflexivity|].
    cbn [app firstn List.length]. rewrite IH.
    change (S (List.length (firstn n l)) <? S n)%nat
      with (List.length (firstn n l) <? n)%nat.
    destruct (List.length (firstn n l) <? n)%nat; reflexivity.
Qed.

Lemma step_examples (showCommands : bool) (m : JsMap.t GroupData)
      (r : BashRecord) (g : string) :
  examples g (groupStep showCommands m r)
  = if String.eqb (classifyCommand (command r)) g
    then if showCommands && (List.length (examples g m) <? 3)%nat
         then (examples g m ++ [ellipsis 60 (command r)])%list
         else examples g m
    else examples g m.
Proof.
  unfold examples at 1. unfold groupStep. rewrite get_set.
  rewrite String.eqb_sym.
  destruct (String.eqb_spec (classifyCommand (command r)) g) as [<-|Hne];
    [|reflexivity].
  unfold examples.
  destruct (JsMap.get (classifyCommand (command r)) m); reflexivity.
Qed.

Lemma groupRecords_examples (showCommands : bool) (rs : list BashRecord)
      (g : string) :
  examples g (groupRecords showCommands rs)
  = if showCommands
    then firstn 3 (map (fun r => ellipsis 60 (command r)) (recordsOf g rs))
    else [].
Proof.
  induction rs as [|r rs IH] using rev_ind.
  - destruct showCommands; reflexivity.
  - unfold groupRecords in *. rewrite fold_left_app. cbn [fold_left].
    rewrite step_examples, IH. unfold recordsOf. rewrite filter_app.
    cbn [filter].
    destruct (String.eqb (classifyCommand (command r)) g).
    + destruct showCommands; [|reflexivity].
      rewrite map_app. cbn [map andb]. rewrite firstn_snoc. reflexivity.
    + rewrite app_nil_r. reflexivity.
Qed.

Lemma summaryLines_examples (showCommands : bool) (rs : list BashRecord)
      (l : SummaryLine) :
  In l (summaryLines showCommands rs) ->
  commands (data l) = examples (group l) (groupRecords showCommands rs).
Proof.
  intros Hin.
  assert (In (group l, data l) (groupRecords showCommands rs)) as H.
  { apply (Permutation_in _ (summaryLines_Permutation showCommands rs)).
    apply (in_map (fun l : SummaryLine => (group l, data l))). exact Hin. }
  apply In_get in H.
  - unfold examples. rewrite H. reflexivity.
  - unfold groupRecords. apply fold_NoDup. constructor.
Qed.

(** With the mode "groups" a category lists the first three commands of
    its records, each cut to 60 characters; in the summary it lists
    none. *)
Theorem examples_are_first_three :
  forall (showCommands : bool) (rs : list BashRecord) (l : SummaryLine),
    In l (summaryLines showCommands rs) ->
    commands (data l)
    = if showCommands
      then firstn 3 (map (fun r => ellipsis 60 (command r))
                         (recordsOf (group l) rs))
      else [].
Proof.
  intros showCommands rs l Hin.
  rewrite <- groupRecords_examples.
  assert (In (group l, data l) (groupRecords showCommands rs)) as H.
  { apply (Permutation_in _ (summaryLines_Permutation showCommands rs)).
    apply (in_map (fun l : SummaryLine => (group l, data l))). exact Hin. }
  apply In_get in H.
  - unfold examples. rewrite H. reflexivity.
  - unfold groupRecords. apply fold_NoDup. constructor.
Qed.

Lemma examples_are_first_three_witness :
  commands (Build_GroupData 1 500 2000 ["pytest -v"])
  = firstn 3 (map (fun r => ellipsis 60 (command r))
                  (recordsOf "pytest" scenario)).
Proof.
  apply (examples_are_first_three true scenario
           {| group := "pytest";
              data := Build_GroupData 1 500 2000 ["pytest -v"];
              pct := Number.Text "97.7" |}).
  vm_compute. tauto.
Defined.

(** No report shows more of a command than 80 characters in the mode
    "all", 70 in the mode "top" and 60 among the examples of a group. *)
Theorem shown_commands_are_bounded :
  forall (args : option string) (rs : list BashRecord),
    match pirs args rs with
    | NoData => True
    | AllCommands shown _ _ =>
        Forall (fun e => snd e = ellipsis 80 (command (fst e))
                         /\ (String.length (snd e) <= 80)%nat) shown
    | TopCommands shown =>
        Forall (fun e => snd e = ellipsis 70 (command (fst e))
                         /\ (String.length (snd e) <= 70)%nat) shown
    | Summary _ lines _ _ =>
        Forall (fun l =>
                  (List.length (commands (data l)) <= 3)%nat
                  /\ Forall (fun c => (String.length c <= 60)%nat)
                            (commands (data l))) lines
    end.
Proof.
  intros args rs. unfold pirs.
  destruct (List.length rs =? 0)%nat; [exact I|].
  destruct (String.eqb (modeOf args) "all").
  - rewrite Forall_map, Forall_forall. intros r _. cbn [fst snd].
    split; [reflexivity|]. apply ellipsis_cut. lia.
  - destruct (String.eqb (modeOf args) "top").
    + rewrite Forall_map, Forall_forall. intros r _. cbn [fst snd].
      split; [reflexivity|]. apply ellipsis_cut. lia.
    + rewrite Forall_forall. intros l Hin.
      rewrite (summaryLines_examples _ rs l Hin), groupRecords_examples.
      destruct (String.eqb (modeOf args) "groups").
      * split; [rewrite length_firstn; lia|].
        apply Forall_forall. intros c Hc.
        apply (In_nth_error) in Hc. destruct Hc as [i Hi].
        assert (In c (map (fun r => ellipsis 60 (command r))
                          (recordsOf (group l) rs))) as Hc.
        { apply nth_error_In with (n := i).
          rewrite nth_error_firstn in Hi.
          destruct (i <? 3)%nat; [exact Hi|discriminate]. }
        apply in_map_iff in Hc. destruct Hc as [r [<- _]].
        apply ellipsis_cut. lia.
      * split; [simpl; lia|constructor].
Qed.

(** An argument that is none of "all", "top" and "groups" once trimmed,
    no argument and a blank argument all give the summary. *)
Theorem other_modes_are_summary :
  forall (args : option string) (rs : list BashRecord),
    (modeOf args <> "all" -> modeOf args <> "top" ->
     modeOf args <> "groups" -> pirs args rs = pirs None rs)
    /\ (forall blank, args = Some blank ->
                      all_chars is_space blank = true ->
                      pirs args rs = pirs None rs).
Proof.
  intros args rs.
  assert (modeOf args <> "all" -> modeOf args <> "top" ->
          modeOf args <> "groups" -> pirs args rs = pirs None rs) as H.
  { intros H1 H2 H3. unfold pirs.
    apply String.eqb_neq in H1, H2, H3. rewrite H1, H2, H3. reflexivity. }
  split; [exact H|].
  intros blank -> Hblank.
  assert (modeOf (Some blank) = "summary") as E.
  { unfold modeOf.
    assert (trim blank = "") as ->; [|reflexivity].
    rewrite <- (append_empty_r blank).
    change (blank ++ "") with (blank ++ "" ++ "").
    rewrite trim_blanks; auto. }
  apply H; rewrite E; discriminate.
Qed.

Lemma other_modes_are_summary_witness :
  pirs (Some "everything") scenario = pirs None scenario.
Proof.
  apply (proj1 (other_modes_are_summary (Some "everything") scenario));
    vm_compute; discriminate.
Defined.

(* ------------------------------------------------------------------ *)
(** * The event handlers *)

Lemma get_delete (V : Type) (k g : string) (m : JsMap.t V) :
  JsMap.get g (JsMap.delete k m)
  = if String.eqb g k then None else JsMap.get g m.
Proof.
  induction m as [|[k' v'] m IH]; simpl.
  - destruct (String.eqb g k); reflexivity.
  - destruct (String.eqb_spec k k') as [<-|Hk]; simpl.
    + rewrite IH. destruct (String.eqb g k); reflexivity.
    + rewrite IH. destruct (String.eqb_spec g k) as [E|Hg]; [|reflexivity].
      rewrite E. destruct (String.eqb_spec k k'); [contradiction|reflexivity].
Qed.

Lemma contentChars_from (content : list ContentPart) (a : Z) :
  fold_left
    (fun n part =>
       match part with
       | TextPart text => n + Z.of_nat (String.length text)
       | OtherPart => n
       end) content a
  = a + Z.of_nat (String.length (contentText content)).
Proof.
  revert a. induction content as [|[text|] content IH]; intros a; simpl.
  - lia.
  - rewrite IH, length_append. lia.
  - apply IH.
Qed.

Lemma contentChars_length (content : list ContentPart) :
  contentChars content = Z.of_nat (String.length (contentText content)).
Proof. unfold contentChars. rewrite contentChars_from. lia. Qed.

Lemma restore_snoc (es : list Entry) (e : Entry) :
  restore (es ++ [e])%list
  = match e with
    | TrackerEntry (Some saved) => saved
    | TrackerEntry None => []
    | OtherEntry => restore es
    end.
Proof. unfold restore. rewrite fold_left_app. reflexivity. Qed.

Lemma onToolResult_records (now : Z) (hasUI : bool) (event : ToolResult)
      (st : State) :
  records (onToolResult now hasUI event st)
  = if resultBash event
    then (records st
          ++ [makeRecord now (commandOf event (pendingCalls st))
                         (contentChars (resultContent event))
                         (resultTruncated event) (resultError event)])%list
    else records st.
Proof. unfold onToolResult. destruct (resultBash event); reflexivity. Qed.

Lemma makeRecord_wellFormed (now : Z) (cmd : string)
      (content : list ContentPart) (trunc err : bool) :
  wellFormed (makeRecord now cmd (contentChars content) trunc err).
Proof.
  unfold wellFormed, makeRecord. cbn [outputChars estimatedTokens].
  rewrite contentChars_length. split; [lia|reflexivity].
Qed.

Lemma pushShared_length (i : option nat) (rs : list BashRecord)
      (es : list Entry) :
  List.length (pushShared i rs es) = List.length es.
Proof.
  revert i. induction es as [|e es IH]; intros [[|j]|]; try reflexivity.
  cbn [pushShared List.length]. rewrite IH. reflexivity.
Qed.

(** The entries that do not hold the shared array are as they were. *)
Lemma pushShared_others (i : option nat) (rs : list BashRecord)
      (es : list Entry) (j : nat) :
  i <> Some j -> nth_error (pushShared i rs es) j = nth_error es j.
Proof.
  revert i j. induction es as [|e es IH]; intros [[|k]|] j H;
    try reflexivity.
  - destruct j as [|j]; [congruence|]. reflexivity.
  - destruct j as [|j]; [reflexivity|].
    cbn [pushShared nth_error]. apply IH. congruence.
Qed.

(** The entry that holds the shared array holds what was pushed. *)
Lemma pushShared_shared (rs saved : list BashRecord) (es : list Entry)
      (j : nat) :
  nth_error es j = Some (TrackerEntry (Some saved)) ->
  nth_error (pushShared (Some j) rs es) j = Some (TrackerEntry (Some rs)).
Proof.
  revert j. induction es as [|e es IH]; intros [|j] H;
    try discriminate.
  - cbn [nth_error] in H. injection H as ->. reflexivity.
  - cbn [nth_error] in H. cbn [pushShared nth_error]. apply IH. exact H.
Qed.

Lemma pushShared_wellFormed (i : option nat) (rs : list BashRecord)
      (es : list Entry) :
  Forall wellFormed rs -> Forall entryWellFormed es ->
  Forall entryWellFormed (pushShared i rs es).
Proof.
  intros Hrs. revert i. induction es as [|e es IH]; intros i H.
  - destruct i; exact H.
  - inversion H as [|? ? He Hes]; subst.
    destruct i as [[|j]|]; [| |exact H].
    + destruct e as [[saved|]|]; constructor; assumption.
    + cbn [pushShared]. constructor; [exact He|]. apply IH. exact Hes.
Qed.

Lemma sharedLoop_snoc (es : list Entry) (e : Entry)
      (start : option nat * nat) :
  sharedLoop (es ++ [e])%list start
  = (match e with
     | TrackerEntry (Some _) => Some (snd (sharedLoop es start))
     | TrackerEntry None => None
     | OtherEntry => fst (sharedLoop es start)
     end, S (snd (sharedLoop es start))).
Proof. unfold sharedLoop. rewrite fold_left_app. reflexivity. Qed.

Lemma sharedLoop_count (es : list Entry) (start : option nat * nat) :
  snd (sharedLoop es start) = (snd start + List.length es)%nat.
Proof.
  induction es as [|e es IH] using rev_ind.
  - simpl. lia.
  - rewrite sharedLoop_snoc, length_app. cbn [snd List.length].
    rewrite IH. lia.
Qed.

(** After [session_start] the shared array is the one of the last tracker
    entry, and that entry holds the records. *)
Lemma sharedEntry_holds_records (es : list Entry) (j : nat) :
  sharedEntry es = Some j ->
  nth_error es j = Some (TrackerEntry (Some (restore es))).
Proof.
  unfold sharedEntry. induction es as [|e es IH] using rev_ind.
  - discriminate.
  - rewrite sharedLoop_snoc, restore_snoc. cbn [fst].
    rewrite sharedLoop_count. cbn [snd Nat.add].
    destruct e as [[saved|]|]; intros H.
    + injection H as <-. rewrite nth_error_app2, Nat.sub_diag by lia.
      reflexivity.
    + discriminate.
    + specialize (IH H).
      assert (j < List.length es)%nat as L
          by (apply nth_error_Some; congruence).
      rewrite nth_error_app1 by exact L. exact IH.
Qed.

(** The record of a bash result counts the characters of the text parts
    of the output, put end to end, and no other part.  It is pushed onto
    the records, and a copy of the records is added to the session as its
    last entry.  The entry whose array the records share, the one
    [session_start] restored from, holds the new record as well; the other
    entries are as they were.  A result of another tool changes
    nothing. *)
Theorem result_counts_text :
  forall (now : Z) (h : bool) (res : ToolResult) (st : State),
    (resultBash res = false -> onToolResult now h res st = st)
    /\ (resultBash res = true ->
        exists (r : BashRecord) (earlier : list Entry),
          records (onToolResult now h res st) = (records st ++ [r])%list
          /\ outputChars r
             = Z.of_nat (String.length (contentText (resultContent res)))
          /\ estimatedTokens r = estimateTokens (outputChars r)
          /\ timestamp r = now
          /\ entries (onToolResult now h res st)
             = (earlier ++ [TrackerEntry (Some (records st ++ [r]))])%list
          /\ List.length earlier = List.length (entries st)
          /\ (forall j, shared st <> Some j ->
                        nth_error earlier j = nth_error (entries st) j)
          /\ (forall j saved,
                shared st = Some j ->
                nth_error (entries st) j = Some (TrackerEntry (Some saved)) ->
                nth_error earlier j
                = Some (TrackerEntry (Some (records st ++ [r])%list))))
    /\ (forall (h0 : bool) (st0 : State) (j : nat),
          st = onSessionStart h0 st0 -> shared st = Some j ->
          nth_error (entries st) j = Some (TrackerEntry (Some (records st)))).
Proof.
  intros now h res st. unfold onToolResult.
  split; [intros ->; reflexivity|]. split.
  - intros ->. cbn [negb records entries]. do 2 eexists.
    split; [reflexivity|]. unfold makeRecord.
    cbn [outputChars estimatedTokens timestamp].
    rewrite contentChars_length.
    split; [reflexivity|]. split; [reflexivity|]. split; [reflexivity|].
    split; [reflexivity|]. split; [apply pushShared_length|]. split.
    + intros j Hj. apply pushShared_others. exact Hj.
    + intros j saved -> Hj. apply (pushShared_shared _ saved). exact Hj.
  - intros h0 st0 j -> Hj. cbn [onSessionStart shared entries records] in *.
    apply sharedEntry_holds_records. exact Hj.
Qed.

Lemma result_counts_text_witness :
  exists (r : BashRecord) (earlier : list Entry),
    records
      (onToolResult 5 true
         (Build_ToolResult true "w1" None [TextPart "ab"; TextPart "cde"]
                           false false)
         (onSessionStart true
            (Build_State [] [] [TrackerEntry (Some scenario); OtherEntry]
                         None None)))
    = (records
         (onSessionStart true
            (Build_State [] [] [TrackerEntry (Some scenario); OtherEntry]
                         None None)) ++ [r])%list
    /\ outputChars r = 5
    /\ nth_error earlier 0 = Some (TrackerEntry (Some (scenario ++ [r])%list)).
Proof.
  destruct (proj1 (proj2 (result_counts_text 5 true
              (Build_ToolResult true "w1" None [TextPart "ab"; TextPart "cde"]
                                false false)
              (onSessionStart true
                 (Build_State [] [] [TrackerEntry (Some scenario); OtherEntry]
                              None None))))
              eq_refl)
    as [r [earlier [H1 [H2 [_ [_ [_ [_ [_ H8]]]]]]]]].
  exists r, earlier. split; [exact H1|]. split; [exact H2|].
  exact (H8 O scenario eq_refl eq_refl).
Defined.

(** Calls and results only add records, one for each result of a bash
    command, each well formed; no record already there is changed. *)
Theorem results_only_append :
  forall (st : State) (evs : list Event),
    Forall additive evs ->
    exists added : list BashRecord,
      records (handleAll st evs) = (records st ++ added)%list
      /\ List.length added = bashResults evs
      /\ Forall wellFormed added.
Proof.
  intros st evs H. revert st.
  induction H as [|ev evs Hev Hevs IH]; intros st.
  - exists []. rewrite app_nil_r. repeat split. constructor.
  - unfold handleAll in *. cbn [fold_left].
    destruct (IH (handle st ev)) as [added [E [L W]]]. rewrite E.
    destruct ev as [h|call|now h res|h]; try contradiction.
    + exists added. cbn [handle]. unfold onToolCall.
      destruct (callBash call); auto.
    + cbn [handle]. rewrite onToolResult_records.
      unfold bashResults in *. cbn [filter].
      destruct (resultBash res).
      * eexists (_ :: added). rewrite <- app_assoc. cbn [app List.length].
        split; [reflexivity|]. split; [congruence|].
        constructor; [apply makeRecord_wellFormed|exact W].
      * exists added. auto.
Qed.

Lemma results_only_append_witness :
  exists added : list BashRecord,
    records
      (handleAll (Build_State scenario [] [] None None)
         [Result 9 true (Build_ToolResult true "id" None
                           [TextPart "ab"; OtherPart; TextPart "cde"]
                           false false)])
    = (scenario ++ added)%list
    /\ List.length added = 1%nat
    /\ Forall wellFormed added.
Proof.
  apply (results_only_append (Build_State scenario [] [] None None)
           [Result 9 true (Build_ToolResult true "id" None
                             [TextPart "ab"; OtherPart; TextPart "cde"]
                             false false)]).
  repeat constructor.
Defined.

(** A result takes the command of the call with its id, whatever command
    the result itself carries; the id is then forgotten, so a second
    result with that id falls back on its own command, or on
    "<unknown>". *)
Theorem result_is_paired_with_call :
  forall (call : ToolCall) (res res' : ToolResult) (now now' : Z)
         (h h' : bool) (st : State),
    callBash call = true -> resultBash res = true ->
    resultBash res' = true ->
    resultId res = callId call -> resultId res' = callId call ->
    let st1 := onToolResult now h res (onToolCall call st) in
    let st2 := onToolResult now' h' res' st1 in
    exists r r',
      records st1 = (records st ++ [r])%list
      /\ command r = callCommand call
      /\ JsMap.get (callId call) (pendingCalls st1) = None
      /\ records st2 = (records st ++ [r; r'])%list
      /\ command r' = match resultCommand res' with
                      | Some c => c
                      | None => "<unknown>"
                      end.
Proof.
  intros call res res' now now' h h' st Hc Hr Hr' Hid Hid' st1 st2.
  subst st1 st2. unfold onToolCall. rewrite Hc.
  unfold onToolResult. rewrite Hr, Hr'. cbn [negb records pendingCalls].
  do 2 eexists. split; [reflexivity|].
  assert (JsMap.get (callId call)
            (JsMap.delete (resultId res)
               (JsMap.set (callId call) (callCommand call)
                          (pendingCalls st))) = None) as Hgone.
  { rewrite get_delete, Hid, String.eqb_refl. reflexivity. }
  split; [|split; [exact Hgone|split]].
  - unfold makeRecord, commandOf. cbn [command].
    rewrite Hid, get_set, String.eqb_refl. reflexivity.
  - rewrite <- app_assoc. reflexivity.
  - unfold makeRecord, commandOf. cbn [command].
    rewrite Hid', Hgone. reflexivity.
Qed.

Lemma result_is_paired_with_call_witness :
  exists r r',
    records
      (onToolResult 2 true (Build_ToolResult true "t1" (Some "ls") [] false false)
         (onToolCall (Build_ToolCall true "t1" "git log")
                     (Build_State [] [] [] None None)))
    = ([] ++ [r])%list
    /\ command r = "git log"
    /\ JsMap.get "t1"
         (pendingCalls
            (onToolResult 2 true
               (Build_ToolResult true "t1" (Some "ls") [] false false)
               (onToolCall (Build_ToolCall true "t1" "git log")
                           (Build_State [] [] [] None None)))) = None
    /\ records
         (onToolResult 3 true
            (Build_ToolResult true "t1" None [] false false)
            (onToolResult 2 true
               (Build_ToolResult true "t1" (Some "ls") [] false false)
               (onToolCall (Build_ToolCall true "t1" "git log")
                           (Build_State [] [] [] None None))))
       = ([] ++ [r; r'])%list
    /\ command r' = "<unknown>".
Proof.
  apply (result_is_paired_with_call
           (Build_ToolCall true "t1" "git log")
           (Build_ToolResult true "t1" (Some "ls") [] false false)
           (Build_ToolResult true "t1" None [] false false)
           2 3 true true (Build_State [] [] [] None None));
    reflexivity.
Defined.

Lemma restore_wellFormed (es : list Entry) :
  Forall entryWellFormed es -> Forall wellFormed (restore es).
Proof.
  induction es as [|e es IH] using rev_ind; intros H.
  - constructor.
  - apply Forall_app in H. destruct H as [Hes He].
    inversion He as [|? ? He1 _]; subst. rewrite restore_snoc.
    destruct e as [[saved|]|]; [exact He1|constructor|auto].
Qed.

(** Whatever the events, the records stay well formed, and so do the
    records saved in the session: each has a count of characters that is
    not negative and the estimate of that count. *)
Theorem records_stay_wellFormed :
  forall (st : State) (evs : list Event),
    Forall wellFormed (records st) ->
    Forall entryWellFormed (entries st) ->
    Forall wellFormed (records (handleAll st evs))
    /\ Forall entryWellFormed (entries (handleAll st evs)).
Proof.
  intros st evs. revert st.
  induction evs as [|ev evs IH]; intros st Hr He; [auto|].
  unfold handleAll in *. cbn [fold_left]. apply IH.
  - destruct ev as [h|call|now h res|h]; cbn [handle].
    + apply restore_wellFormed. exact He.
    + unfold onToolCall. destruct (callBash call); exact Hr.
    + rewrite onToolResult_records. destruct (resultBash res); [|exact Hr].
      apply Forall_app. split; [exact Hr|].
      constructor; [apply makeRecord_wellFormed|constructor].
    + constructor.
  - destruct ev as [h|call|now h res|h]; cbn [handle].
    + exact He.
    + unfold onToolCall. destruct (callBash call); exact He.
    + unfold onToolResult. destruct (resultBash res); [|exact He].
      cbn [negb entries].
      assert (Forall wellFormed
                (records st
                 ++ [makeRecord now (commandOf res (pendingCalls st))
                       (contentChars (resultContent res))
                       (resultTruncated res) (resultError res)])%list) as Hrs.
      { apply Forall_app. split; [exact Hr|].
        constructor; [apply makeRecord_wellFormed|constructor]. }
      apply Forall_app. split.
      * apply pushShared_wellFormed; assumption.
      * constructor; [exact Hrs|constructor].
    + cbn [onReset fst entries]. apply Forall_app. split; [exact He|].
      constructor; [|constructor]. constructor.
Qed.

Lemma records_stay_wellFormed_witness :
  Forall wellFormed
    (records
       (handleAll
          (Build_State [] [] [TrackerEntry (Some scenario)] None None)
          [SessionStart true;
           Call (Build_ToolCall true "t1" "git log");
           Result 7 true (Build_ToolResult true "t1" None
                            [TextPart "commit 1"; OtherPart] true false);
           SessionStart false]))
  /\ Forall entryWellFormed
       (entries
          (handleAll
             (Build_State [] [] [TrackerEntry (Some scenario)] None None)
             [SessionStart true;
              Call (Build_ToolCall true "t1" "git log");
              Result 7 true (Build_ToolResult true "t1" None
                               [TextPart "commit 1"; OtherPart] true false);
              SessionStart false])).
Proof.
  apply (records_stay_wellFormed
           (Build_State [] [] [TrackerEntry (Some scenario)] None None)
           [SessionStart true;
            Call (Build_ToolCall true "t1" "git log");
            Result 7 true (Build_ToolResult true "t1" None
                             [TextPart "commit 1"; OtherPart] true false);
            SessionStart false]).
  - constructor.
  - repeat constructor; vm_compute; congruence.
Defined.

Lemma handle_keeps_saved (st : State) (ev : Event) :
  restore (entries st) = records st ->
  restore (entries (handle st ev)) = records (handle st ev).
Proof.
  intros H. destruct ev as [h|call|now h res|h]; cbn [handle].
  - reflexivity.
  - unfold onToolCall. destruct (callBash call); exact H.
  - unfold onToolResult. destruct (resultBash res); [|exact H].
    cbn [negb entries records]. apply restore_snoc.
  - cbn [onReset fst entries records]. apply restore_snoc.
Qed.

(** From the start of a session on, what the session holds is what the
    extension holds: after any events, restoring gives the current
    records, also when the host has added entries of its own since. *)
Theorem saved_records_are_restored :
  forall (st : State) (evs : list Event) (h h' : bool) (n : nat),
    let st' := handleAll (onSessionStart h st) evs in
    restore (entries st') = records st'
    /\ restore (entries st' ++ repeat OtherEntry n)%list = records st'
    /\ records (onSessionStart h' st') = records st'.
Proof.
  intros st evs h h' n st'.
  assert (restore (entries st') = records st') as H.
  { subst st'. generalize (onSessionStart h st) (eq_refl
        : restore (entries (onSessionStart h st))
          = records (onSessionStart h st)).
    induction evs as [|ev evs IH]; intros s Hs; [exact Hs|].
    unfold handleAll in *. cbn [fold_left]. apply IH.
    apply handle_keeps_saved. exact Hs. }
  split; [exact H|]. split; [|exact H].
  rewrite <- H. induction n as [|n IH]; cbn [repeat].
  - rewrite app_nil_r. reflexivity.
  - rewrite repeat_cons, app_assoc, restore_snoc. exact IH.
Qed.

(** The reset reports how many records there were and leaves none, in the
    extension and in the session: the report, the export and the widget
    then have nothing to show. *)
Theorem reset_clears_everything :
  forall (h : bool) (st : State) (args : option string),
    let st' := fst (onReset h st) in
    snd (onReset h st) = List.length (records st)
    /\ records st' = []
    /\ restore (entries st') = []
    /\ pirs args (records st') = NoData
    /\ onExport st' = NothingToExport
    /\ (h = true -> widget st' = None).
Proof.
  intros h st args st'. subst st'. cbn [onReset fst snd records entries].
  rewrite restore_snoc. repeat split.
  intros ->. reflexivity.
Qed.

Lemma reset_clears_everything_witness :
  widget (fst (onReset true (Build_State scenario [] [] None None))) = None.
Proof.
  apply (reset_clears_everything true (Build_State scenario [] [] None None) None).
  reflexivity.
Defined.

Lemma handle_keeps_widget (st : State) (ev : Event) :
  withUI ev ->
  widget st = updateWidget true (records st) None ->
  widget (handle st ev) = updateWidget true (records (handle st ev)) None.
Proof.
  intros Hui H. destruct ev as [h|call|now h res|h]; cbn [handle];
    cbn [withUI] in Hui; try subst h.
  - reflexivity.
  - unfold onToolCall. destruct (callBash call); exact H.
  - unfold onToolResult. destruct (resultBash res); [|exact H].
    reflexivity.
  - reflexivity.
Qed.

(** While the host shows the widget, the widget follows the records: it is
    absent exactly when there is no record, and else it carries their
    number, the sum of their estimates and the sum of their characters. *)
Theorem widget_follows_records :
  forall (st : State) (evs : list Event),
    Forall withUI evs ->
    let st' := handleAll (onSessionStart true st) evs in
    match widget st' with
    | None => records st' = []
    | Some w =>
        records st' <> []
        /\ widgetCalls w = List.length (records st')
        /\ widgetTokens w = sumTokens (records st')
        /\ widgetChars w = sumChars (records st')
    end.
Proof.
  intros st evs Hui st'.
  assert (widget st' = updateWidget true (records st') None) as H.
  { subst st'. generalize (onSessionStart true st) (eq_refl
        : widget (onSessionStart true st)
          = updateWidget true (records (onSessionStart true st)) None).
    induction Hui as [|ev evs Hev Hevs IH]; intros s Hs; [exact Hs|].
    unfold handleAll in *. cbn [fold_left]. apply IH.
    apply handle_keeps_widget; assumption. }
  rewrite H. unfold updateWidget. cbn [negb].
  destruct (records st') as [|r rs]; [reflexivity|].
  cbn [List.length Nat.eqb widgetCalls widgetTokens widgetChars].
  repeat split. discriminate.
Qed.

Lemma widget_follows_records_witness :
  widget
    (handleAll
       (onSessionStart true
          (Build_State [] [] [TrackerEntry (Some scenario)] None None))
       [Call (Build_ToolCall true "t1" "git log");
        Result 7 true (Build_ToolResult true "t1" None
                         [TextPart "commit 1"; OtherPart] false false)])
  = Some {| widgetCalls := 4; widgetTokens := 514; widgetChars := 2056 |}.
Proof.
  pose proof (widget_follows_records
                (Build_State [] [] [TrackerEntry (Some scenario)] None None)
                [Call (Build_ToolCall true "t1" "git log");
                 Result 7 true (Build_ToolResult true "t1" None
                                  [TextPart "commit 1"; OtherPart]
                                  false false)]
                ltac:(repeat constructor)) as H.
  cbv zeta in H.
  destruct (widget _) as [w|] eqn:E.
  - destruct H as [_ [H1 [H2 H3]]]. destruct w as [c t ch].
    cbn [widgetCalls widgetTokens widgetChars] in H1, H2, H3.
    rewrite H1, H2, H3. vm_compute. reflexivity.
  - vm_compute in H. discriminate H.
Defined.

(** The export and the grouped report agree: the totals the export
    writes are the sums, over the categories of the report, of the calls,
    the tokens and the characters. *)
Theorem export_agrees_with_summary :
  forall (st : State) (showCommands : bool) (n : nat) (tokens chars : Z)
         (saved : list BashRecord),
    onExport st = Exported n tokens chars saved ->
    let lines := summaryLines showCommands saved in
    saved = records st /\ saved <> []
    /\ Z.of_nat n = total (fun l => count (data l)) lines
    /\ tokens = total (fun l => totalTokens (data l)) lines
    /\ chars = total (fun l => totalChars (data l)) lines.
Proof.
  intros st showCommands n tokens chars saved H lines. subst lines.
  unfold onExport in H.
  destruct (records st) as [|r rs] eqn:E; [discriminate|].
  cbn [List.length Nat.eqb] in H. injection H as <- <- <- <-.
  rewrite (summaryLines_total showCommands (r :: rs) count (fun _ => 1)
             tally_count), total_ones.
  rewrite (summaryLines_total showCommands (r :: rs) totalTokens
             estimatedTokens tally_tokens).
  rewrite (summaryLines_total showCommands (r :: rs) totalChars outputChars
             tally_chars).
  split; [reflexivity|]. split; [discriminate|].
  split; [reflexivity|]. split; [apply sumTokens_total|].
  unfold sumChars. rewrite reduce_total. lia.
Qed.

Lemma export_agrees_with_summary_witness :
  scenario = records (Build_State scenario [] [] None None) /\ scenario <> []
  /\ Z.of_nat 3 = total (fun l => count (data l)) (summaryLines true scenario)
  /\ 512 = total (fun l => totalTokens (data l)) (summaryLines true scenario)
  /\ 2048 = total (fun l => totalChars (data l)) (summaryLines true scenario).
Proof.
  apply (export_agrees_with_summary (Build_State scenario [] [] None None) true
           3 512 2048 scenario).
  vm_compute. reflexivity.
Defined.

(* ------------------------------------------------------------------ *)
(** * The grouped summary lists the categories of the records *)

Lemma firstIndex_found (g : string) (rs : list BashRecord) :
  (firstIndex g rs < List.length rs)%nat <->
  exists r, In r rs /\ classifyCommand (command r) = g.
Proof.
  induction rs as [|r rs IH]; simpl.
  - split; [lia|]. intros [r [[] _]].
  - destruct (String.eqb_spec (classifyCommand (command r)) g) as [E|E].
    + split; [|lia]. intros _. exists r. auto.
    + split.
      * intros H. apply Nat.succ_lt_mono in H. apply IH in H.
        destruct H as [r' [Hin Hr']]. exists r'. auto.
      * intros [r' [[->|Hin] Hr']]; [contradiction|].
        apply -> Nat.succ_lt_mono. apply IH. exists r'. auto.
Qed.

Lemma summaryLines_categories (showCommands : bool) (rs : list BashRecord)
      (g : string) :
  In g (map group (summaryLines showCommands rs)) <->
  exists r, In r rs /\ classifyCommand (command r) = g.
Proof.
  pose proof (summaryLines_Permutation showCommands rs) as P.
  apply (Permutation_map fst) in P. rewrite map_map in P. cbn [fst] in P.
  destruct (groupRecords_encounter_order showCommands rs) as [Hkeys _].
  rewrite <- firstIndex_found, <- Hkeys. split.
  - intros H E. apply get_None_keys in E. apply E.
    apply (Permutation_in _ P). exact H.
  - intros H. apply (Permutation_in _ (Permutation_sym P)).
    destruct (in_dec string_dec g
                (map fst (groupRecords showCommands rs))) as [Hk|Hk];
      [exact Hk|].
    apply get_None_keys in Hk. contradiction.
Qed.

Lemma summaryLines_NoDup (showCommands : bool) (rs : list BashRecord) :
  NoDup (map group (summaryLines showCommands rs)).
Proof.
  pose proof (summaryLines_Permutation showCommands rs) as P.
  apply (Permutation_map fst) in P. rewrite map_map in P. cbn [fst] in P.
  apply (Permutation_NoDup (Permutation_sym P)).
  unfold groupRecords. apply fold_NoDup. constructor.
Qed.

(** C5: the grouped summary lists the categories of the records, each
    once and with the sum of the estimates of its records; the lines are
    sorted by these totals, largest first, and of two categories with
    equal totals the one whose first record came earlier in the sequence
    is listed first. *)
Theorem grouped_summary_lists_categories_in_order :
  forall (showCommands : bool) (records : list BashRecord),
    let lines := summaryLines showCommands records in
    (forall g, In g (map group lines) <->
               exists r, In r records /\ classifyCommand (command r) = g)
    /\ NoDup (map group lines)
    /\ (forall l, In l lines ->
                  totalTokens (data l)
                  = total estimatedTokens (recordsOf (group l) records))
    /\ StronglySorted
         (fun a b =>
            totalTokens (data b) < totalTokens (data a)
            \/ (totalTokens (data a) = totalTokens (data b)
                /\ (firstIndex (group a) records
                    < firstIndex (group b) records)%nat))
         lines.
Proof.
  intros showCommands records lines. subst lines.
  split; [intros g; apply summaryLines_categories|].
  split; [apply summaryLines_NoDup|].
  split.
  - intros l Hin.
    apply (summaryLines_figure showCommands records totalTokens
             estimatedTokens l tally_tokens Hin).
  - apply grouped_summary_sorted_stable.
Qed.

Lemma grouped_summary_lists_categories_in_order_witness :
  In "other" (map group (summaryLines false scenario)).
Proof.
  apply (proj2 (proj1 (grouped_summary_lists_categories_in_order
                         false scenario) "other")).
  exists (makeRecord 3 "echo hi" 8 false false). split.
  - simpl; tauto.
  - vm_compute; reflexivity.
Defined.

(* ------------------------------------------------------------------ *)
(** * Only the empty sequence is "no data" *)



(* ------------------------------------------------------------------ *)
(** * A version that starts with an operator *)

(** The optional "--" and blanks do not match at a token made of a name
    and "@". *)
Lemma dashes_not_matched_name (len0 : nat) (name rest : string)
      (caps : captures) (k : cont) :
  name <> "" -> all_chars is_pkg_char name = true ->
  run len0 (Seq (Lit "--") (Plus (Class is_space)))
      ((name ++ "@") ++ rest) caps k = None.
Proof.
  intros Hne Hall. destruct name as [|c1 [|c2 name]]; [contradiction| |].
  - cbn [String.append Lit]. rewrite !run_Seq, run_Class.
    destruct (Ascii.eqb "-" c1); [|reflexivity].
    rewrite run_Seq, run_Class. reflexivity.
  - cbn [String.append].
    destruct (name ++ "@") as [|c3 t] eqn:E.
    { destruct name; discriminate E. }
    cbn [String.append]. apply dashes_not_matched.
    destruct name as [|d name]; cbn [String.append] in E.
    + injection E as <- _. reflexivity.
    + injection E as <- _. simpl in Hall.
      repeat (apply andb_true_iff in Hall; destruct Hall as [? Hall]).
      apply pkg_char_not_space. assumption.
Qed.

(** The runner pattern at a token made of a name and "@", followed by
    something that ends the token: its group is the name and "@". *)
Lemma exec_runner_name_at (runner name rest : string) :
  name <> "" -> all_chars is_pkg_char name = true ->
  stops is_pkg_char rest = true ->
  exec (re_runner runner) (runner ++ " " ++ (name ++ "@") ++ rest)
  = Some (MatchResult 0 rest [(1%nat, name ++ "@")]).
Proof.
  intros Hne Hall Hstop.
  assert (all_chars is_pkg_char (name ++ "@") = true) as Htok
      by (rewrite all_chars_append, Hall; reflexivity).
  unfold exec. rewrite exec_from_unfold. unfold re_runner.
  rewrite run_Seq, run_Lit. cbv beta.
  rewrite run_Seq, run_Plus, run_Class. cbn [String.append].
  change (is_space " ") with true. cbv iota.
  destruct name as [|c1 t]; [contradiction|].
  assert (is_pkg_char c1 = true) as H1
      by (simpl in Hall; apply andb_true_iff in Hall; tauto).
  rewrite star_class_stop
    by (simpl; rewrite (pkg_char_not_space c1 H1); reflexivity).
  rewrite run_Seq, run_Opt.
  rewrite (dashes_not_matched_name _ (String c1 t) rest)
    by (assumption || discriminate).
  rewrite run_Group, run_Plus. cbn [String.append].
  rewrite run_Class, H1.
  simpl in Htok. apply andb_true_iff in Htok. destruct Htok as [_ Htok].
  rewrite (star_class_greedy _ is_pkg_char _ (t ++ "@")
             (String.length ((t ++ "@") ++ rest)) rest
             [] (rest, [(1%nat, String c1 (t ++ "@"))])); auto.
  change (String c1 ((t ++ "@") ++ rest))
    with (String c1 (t ++ "@") ++ rest).
  rewrite consumed_append. reflexivity.
Qed.

(** Nothing is removed from a token that ends in "@": the suffix pattern
    wants a version character before the end. *)
Lemma version_suffix_absent (name : string) :
  replace_empty re_version_suffix (name ++ "@") = name ++ "@".
Proof.
  unfold replace_empty, exec.
  generalize (String.length (name ++ "@")) as len0. intros len0.
  assert (forall i, exec_from len0 re_version_suffix i (name ++ "@") = None)
    as H.
  { induction name as [|c name IH]; intros i; rewrite exec_from_unfold.
    - reflexivity.
    - change (String c name ++ "@") with (String c name ++ "@" ++ "").
      rewrite (version_suffix_not_inside "" len0 c name).
      cbn [String.append]. apply IH. }
  rewrite H. reflexivity.
Qed.

(** C7, where the code departs from it: the token the runner pattern
    captures stops before ^ ~ > = < and the star, so a version that starts
    with one of them is cut off before the suffix is looked for, and the
    category keeps the name with its "@".  A version of digits and dots
    is removed, as in "npx @scope/tool@1.2.3 build". *)
Theorem runner_operator_version_is_kept :
  classifyCommand "npx foo@^1.2.3 --save" = "npx foo@"
  /\ classifyCommand "npx foo@~1.2" = "npx foo@"
  /\ classifyCommand "bunx tool@>=2 run" = "bunx tool@"
  /\ classifyCommand "uvx ruff@* check" = "uvx ruff@"
  /\ classifyCommand "npx foo@1.2.3 --save" = "npx foo"
  /\ classifyCommand "npx @scope/tool@1.2.3 build" = "npx @scope/tool"
  /\ forall (command runner name ver : string) (op : ascii),
       In runner RUNNERS ->
       extractBaseCommand command
       = runner ++ " " ++ (name ++ "@") ++ String op ver ->
       name <> "" -> all_chars is_pkg_char name = true ->
       is_version_char op = true -> is_pkg_char op = false ->
       extractRunnerCommand (extractBaseCommand command) runner
       = Some (name ++ "@")
       /\ classifyCommand command = runner ++ " " ++ name ++ "@".
Proof.
  repeat (split; [vm_compute; reflexivity|]).
  intros command runner name ver op Hin Hbase Hne Hall Hv Hp.
  assert (extractRunnerCommand (extractBaseCommand command) runner
          = Some (name ++ "@")) as Hsub.
  { rewrite Hbase. unfold extractRunnerCommand.
    rewrite exec_runner_name_at; auto.
    - cbn [groups capture Nat.eqb]. rewrite version_suffix_absent.
      reflexivity.
    - simpl. rewrite Hp. reflexivity. }
  split; [exact Hsub|].
  unfold classifyCommand.
  rewrite (classifyRunner_hit _ runner Hin), Hsub.
  - destruct name; [contradiction|]. reflexivity.
  - rewrite Hbase, <- append_assoc. apply startsWith_append.
Qed.

Lemma runner_operator_version_is_kept_witness :
  extractRunnerCommand (extractBaseCommand "npx foo@^1.2.3 --save") "npx"
  = Some ("foo" ++ "@")
  /\ classifyCommand "npx foo@^1.2.3 --save" = "npx" ++ " " ++ "foo" ++ "@".
Proof.
  apply (proj2 (proj2 (proj2 (proj2 (proj2 (proj2
           runner_operator_version_is_kept)))))
           "npx foo@^1.2.3 --save" "npx" "foo" "1.2.3 --save" "^"%char).
  - simpl; tauto.
  - vm_compute; reflexivity.
  - discriminate.
  - reflexivity.
  - reflexivity.
  - reflexivity.
Defined.
